(** * Sadie: the middleware kernel between model text and side effects

    A shallow embedding of the Python sources

      - [sadie/core/ollama_client.py]   ([extract_tool_calls])
      - [sadie/core/config.py]          ([is_action_blocked], [requires_confirmation])
      - [sadie/core/safety.py]          ([SafetyValidator])
      - [sadie/modules/memory.py]       ([MemoryModule])
      - [sadie/modules/file_actions.py], [email.py], [api.py], [voice.py],
        [vision.py], [planning.py]      (the [execute] entry points)
      - [sadie/core/module_router.py]   ([ModuleRouter])

    Python values are JSON-shaped data, dictionaries are association lists
    in insertion order, exceptions are an explicit [Raise] outcome, and the
    SQLite tables of the memory module are finite maps keyed by their
    primary key.  A text is the string of bytes of its UTF-8 form, in which
    the braces, quotes and slashes the kernel looks for are single bytes. *)

From Stdlib Require Import ZArith Ascii String List Lia.
From stdpp Require Import base option list strings gmap sorting pretty.

Local Open Scope string_scope.
Local Open Scope Z_scope.

(** ** Python values *)

Set Warnings "-register-all".

(** What [json.loads] produces and what the handlers pass around.  A float
    is kept as its source lexeme: only its truth value is computed. *)
Inductive value : Type :=
  | VNone
  | VBool (b : bool)
  | VInt (n : Z)
  | VFloat (lexeme : string)
  | VStr (s : string)
  | VList (items : list value)
  | VDict (entries : list (string * value)).

(** A [dict] with string keys, in insertion order. *)
Abbreviation dict := (list (string * value)).

(** [d.get(k)]: the value stored under [k], if any. *)
Fixpoint dict_get (k : string) (d : dict) : option value :=
  match d with
  | [] => None
  | (k', v) :: d' => if String.eqb k k' then Some v else dict_get k d'
  end.

(** [d[k] = v]: overwrite in place when the key exists, append otherwise. *)
Fixpoint dict_set (k : string) (v : value) (d : dict) : dict :=
  match d with
  | [] => [(k, v)]
  | (k', v') :: d' =>
      if String.eqb k k' then (k', v) :: d' else (k', v') :: dict_set k v d'
  end.

(** [k in d]. *)
Definition dict_has (k : string) (d : dict) : bool :=
  match dict_get k d with Some _ => true | None => false end.

(** The decimal digits at the head of [s]: the number they spell after
    the digits already read as [acc], how many they are after [count], and
    the rest of [s]. *)
Fixpoint leading_digits (s : string) (acc count : Z) : Z * Z * string :=
  match s with
  | EmptyString => (acc, count, s)
  | String c s' =>
      let d := Z.of_N (N_of_ascii c) - 48 in
      if ((0 <=? d) && (d <=? 9))%bool
      then leading_digits s' (10 * acc + d) (count + 1)
      else (acc, count, s)
  end.

(** A float lexeme (sign, digits, fraction, exponent) as [(m, e)]: its
    magnitude is [m * 10 ^ e]. *)
Definition decimal_of_lexeme (lexeme : string) : Z * Z :=
  let s := match lexeme with String "-" r => r | _ => lexeme end in
  let '(whole, _, r1) := leading_digits s 0 0 in
  let '(m, places, r2) :=
    match r1 with
    | String "." r => leading_digits r whole 0
    | _ => (whole, 0, r1)
    end in
  let exponent :=
    match r2 with
    | String c r =>
        if (Ascii.eqb c "e" || Ascii.eqb c "E")%bool then
          match r with
          | String "-" t => - (leading_digits t 0 0).1.1
          | String "+" t => (leading_digits t 0 0).1.1
          | _ => (leading_digits r 0 0).1.1
          end
        else 0
    | EmptyString => 0
    end in
  (m, exponent - places).

(** [bool(x)] for the float a lexeme denotes.  The lexeme is read as the
    nearest double, so it is zero when its magnitude is at most half the
    smallest positive double, [2 ^ -1074] (the tie goes to zero, the even
    neighbour); NaN and the infinities are not zero. *)
Definition float_nonzero (lexeme : string) : bool :=
  if (String.eqb lexeme "NaN" || String.eqb lexeme "Infinity"
      || String.eqb lexeme "-Infinity")%bool then true
  else
    let '(m, e) := decimal_of_lexeme lexeme in
    if 0 <=? e then 0 <? m else 10 ^ (- e) <? m * 2 ^ 1075.

(** Python truthiness: [bool(v)], as used by [if not v]. *)
Definition truthy (v : value) : bool :=
  match v with
  | VNone => false
  | VBool b => b
  | VInt n => negb (n =? 0)
  | VFloat l => float_nonzero l
  | VStr s => negb (String.eqb s "")
  | VList l => match l with [] => false | _ => true end
  | VDict d => match d with [] => false | _ => true end
  end.

(** [type(v).__name__]. *)
Definition type_name (v : value) : string :=
  match v with
  | VNone => "NoneType"
  | VBool _ => "bool"
  | VInt _ => "int"
  | VFloat _ => "float"
  | VStr _ => "str"
  | VList _ => "list"
  | VDict _ => "dict"
  end.

(** ** Exceptions *)

(** The outcome of a call that may raise: [Raise msg] carries [str(e)], in
    the words of CPython 3.11. *)
Inductive outcome (A : Type) : Type :=
  | Ret (a : A)
  | Raise (msg : string).
Arguments Ret {A} a.
Arguments Raise {A} msg.

(** The error monad: [x ← m; k] runs [k] unless [m] raised. *)
#[global] Instance outcome_ret : MRet outcome := @Ret.
#[global] Instance outcome_bind : MBind outcome := λ A B f m,
  match m with
  | Ret a => f a
  | Raise e => Raise e
  end.

(** [params.get(k, fallback)].  [params] is whatever the tool call carried
    under "params"; anything but a dict has no [get] attribute. *)
Definition params_get (params : value) (k : string) (fallback : value)
  : outcome value :=
  match params with
  | VDict d => Ret (default fallback (dict_get k d))
  | _ => Raise ("'" +:+ type_name params +:+ "' object has no attribute 'get'")
  end.

(** ** Strings as Python sees them *)

(** [len(s)]. *)
Definition str_len (s : string) : Z := Z.of_nat (String.length s).

(** [s[i]] for [0 <= i < len(s)]. *)
Definition str_at (s : string) (i : Z) : option ascii :=
  if i <? 0 then None else String.get (Z.to_nat i) s.

(** [s[a:b]] for [0 <= a <= b]. *)
Definition str_slice (s : string) (a b : Z) : string :=
  String.substring (Z.to_nat a) (Z.to_nat (b - a)) s.

(** The first index [>= i] at which [c] occurs among the next [n]
    characters, or [-1]. *)
Fixpoint find_char (c : ascii) (s : string) (n : nat) (i : Z) : Z :=
  match n with
  | O => -1
  | S n' =>
      match str_at s i with
      | Some c' => if Ascii.eqb c' c then i else find_char c s n' (i + 1)
      | None => -1
      end
  end.

(** [s.find(c, start)] for a one-character needle and [start >= 0]. *)
Definition str_find (s : string) (c : ascii) (start : Z) : Z :=
  find_char c s (Z.to_nat (str_len s - start)) start.

(** [sub in s] on strings. *)
Fixpoint str_contains (sub s : string) : bool :=
  if String.prefix sub s then true
  else match s with
       | EmptyString => false
       | String _ s' => str_contains sub s'
       end.

(** [s.startswith(p)]. *)
Definition startswith (s p : string) : bool := String.prefix p s.

(** ** Tool-call extraction ([core/ollama_client.py]) *)

(** What a call of [json.loads] can do: return a value, raise
    [json.JSONDecodeError], or raise something else (a [RecursionError] on
    deeply nested input). *)
Inductive loads_result : Type :=
  | LoadsOk (v : value)
  | LoadsDecodeError
  | LoadsOtherError.

(** ['action' in v].  Membership is defined on dicts (keys), lists
    (elements) and strings (substrings); any other operand is a
    [TypeError]. *)
Definition contains_action (v : value) : outcome bool :=
  match v with
  | VDict d => Ret (dict_has "action" d)
  | VList l =>
      Ret (existsb (λ x, match x with
                         | VStr s => String.eqb s "action"
                         | _ => false
                         end) l)
  | VStr s => Ret (str_contains "action" s)
  | _ => Raise ("argument of type '" +:+ type_name v +:+ "' is not iterable")
  end.

(** The inner [for i in range(start_idx, len(response_text))] of
    [extract_tool_calls]: [n] positions are left to visit, [i] is the
    current one.  Returns [(brace_count, end_idx)] as they stand when the
    loop is left, by [break] or by exhausting the range. *)
Fixpoint scan_braces (text : string) (n : nat) (i brace_count end_idx : Z)
  : Z * Z :=
  match n with
  | O => (brace_count, end_idx)
  | S n' =>
      match str_at text i with
      | Some c =>
          if Ascii.eqb c "{" then
            scan_braces text n' (i + 1) (brace_count + 1) end_idx
          else if Ascii.eqb c "}" then
            let brace_count := brace_count - 1 in
            if brace_count =? 0 then (brace_count, i + 1)
            else scan_braces text n' (i + 1) brace_count end_idx
          else scan_braces text n' (i + 1) brace_count end_idx
      | None => (brace_count, end_idx)
      end
  end.

Section Extractor.

(** [json.loads], the standard-library parser the extractor calls. *)
Variable json_loads : string → loads_result.

(** The [while start_idx != -1] loop.  [fuel] bounds the number of
    iterations; [None] means the bound was too small, never a Python
    outcome.  An exception other than [JSONDecodeError] leaves through
    the outer [except Exception: pass] with the calls found so far. *)
Fixpoint extract_loop (fuel : nat) (text : string) (start_idx : Z)
    (tool_calls : list value) : option (list value) :=
  if start_idx =? -1 then Some tool_calls
  else
    match fuel with
    | O => None
    | S fuel' =>
        let '(brace_count, end_idx) :=
          scan_braces text (Z.to_nat (str_len text - start_idx))
                      start_idx 0 start_idx in
        if brace_count =? 0 then
          match json_loads (str_slice text start_idx end_idx) with
          | LoadsOk tool_call =>
              match contains_action tool_call with
              | Ret true =>
                  extract_loop fuel' text (str_find text "{" end_idx)
                               (tool_calls ++ [tool_call])
              | Ret false =>
                  extract_loop fuel' text (str_find text "{" end_idx)
                               tool_calls
              | Raise _ => Some tool_calls
              end
          | LoadsDecodeError =>
              extract_loop fuel' text (str_find text "{" end_idx) tool_calls
          | LoadsOtherError => Some tool_calls
          end
        else Some tool_calls
    end.

(** [OllamaClient.extract_tool_calls].  One iteration per character of
    the text is always enough (see [extract_loop_fuel]). *)
Definition extract_tool_calls (response_text : string)
  : option (list value) :=
  extract_loop (String.length response_text) response_text
               (str_find response_text "{" 0) [].

End Extractor.

(** ** A model of [json.loads]

    The decoder of Python's [json] module on byte strings: objects, arrays,
    strings with their escapes, numbers, and the literals.  It is what the
    extractor is run with on concrete texts. *)
Module Json.

(** The double quote and the backslash. *)
Definition dquote : ascii := ascii_of_nat 34.
Definition backslash : ascii := ascii_of_nat 92.

(** Writes a text with apostrophes where the double quotes go. *)
Fixpoint dq (s : string) : string :=
  match s with
  | EmptyString => EmptyString
  | String c s' => String (if Ascii.eqb c "'" then dquote else c) (dq s')
  end.

Definition code (c : ascii) : Z := Z.of_N (N_of_ascii c).
Definition is_ws (c : ascii) : bool :=
  (Ascii.eqb c " " || (code c =? 9) || (code c =? 10) || (code c =? 13))%bool.
Definition is_digit (c : ascii) : bool :=
  ((48 <=? code c) && (code c <=? 57))%bool.

Fixpoint skip_ws (s : string) : string :=
  match s with
  | String c s' => if is_ws c then skip_ws s' else s
  | EmptyString => s
  end.

(** The longest prefix of digits, and what follows it. *)
Fixpoint take_digits (s : string) : string * string :=
  match s with
  | String c s' =>
      if is_digit c then
        let '(ds, r) := take_digits s' in (String c ds, r)
      else (EmptyString, s)
  | EmptyString => (EmptyString, s)
  end.

Fixpoint digits_value (acc : Z) (ds : string) : Z :=
  match ds with
  | EmptyString => acc
  | String c ds' => digits_value (10 * acc + (code c - 48)) ds'
  end.

Definition hex_digit (c : ascii) : option Z :=
  let n := code c in
  if is_digit c then Some (n - 48)
  else if ((97 <=? n) && (n <=? 102))%bool then Some (n - 87)
  else if ((65 <=? n) && (n <=? 70))%bool then Some (n - 55)
  else None.

(** Four hexadecimal digits, as after a backslash-u. *)
Definition hex4 (s : string) : option (Z * string) :=
  match s with
  | String a (String b (String c (String d r))) =>
      ha ← hex_digit a; hb ← hex_digit b; hc ← hex_digit c;
      hd ← hex_digit d;
      Some (((ha * 16 + hb) * 16 + hc) * 16 + hd, r)
  | _ => None
  end.

Definition byte (n : Z) : ascii := ascii_of_N (Z.to_N n).

(** The UTF-8 bytes of a code point. *)
Definition utf8 (cp : Z) : string :=
  if cp <? 128 then String (byte cp) EmptyString
  else if cp <? 2048 then
    String (byte (192 + cp / 64)) (String (byte (128 + cp mod 64)) EmptyString)
  else if cp <? 65536 then
    String (byte (224 + cp / 4096))
      (String (byte (128 + (cp / 64) mod 64))
         (String (byte (128 + cp mod 64)) EmptyString))
  else
    String (byte (240 + cp / 262144))
      (String (byte (128 + (cp / 4096) mod 64))
         (String (byte (128 + (cp / 64) mod 64))
            (String (byte (128 + cp mod 64)) EmptyString))).

(** The body of a string literal, after its opening quote: the decoded
    text and the input after the closing quote.  Control characters are
    rejected (strict mode), a high surrogate escape is joined with a
    following low one. *)
Fixpoint scan_string (fuel : nat) (s : string) : option (string * string) :=
  match fuel with
  | O => None
  | S fuel' =>
      match s with
      | EmptyString => None
      | String c s' =>
          if Ascii.eqb c dquote then Some (EmptyString, s')
          else if code c <? 32 then None
          else if Ascii.eqb c backslash then
            match s' with
            | EmptyString => None
            | String e s'' =>
                let simple (x : Z) :=
                  '(t, r) ← scan_string fuel' s''; Some (String (byte x) t, r) in
                if Ascii.eqb e dquote then simple 34
                else if Ascii.eqb e backslash then simple 92
                else if Ascii.eqb e "/" then simple 47
                else if Ascii.eqb e "b" then simple 8
                else if Ascii.eqb e "f" then simple 12
                else if Ascii.eqb e "n" then simple 10
                else if Ascii.eqb e "r" then simple 13
                else if Ascii.eqb e "t" then simple 9
                else if Ascii.eqb e "u" then
                  '(u, r) ← hex4 s'';
                  let '(cp, r) :=
                    match r with
                    | String b (String v r') =>
                        if ((55296 <=? u) && (u <? 56320) && Ascii.eqb b backslash
                            && Ascii.eqb v "u")%bool
                        then match hex4 r' with
                             | Some (u2, r'') =>
                                 if ((56320 <=? u2) && (u2 <? 57344))%bool
                                 then (65536 + (u - 55296) * 1024 + (u2 - 56320), r'')
                                 else (u, r)
                             | None => (u, r)
                             end
                        else (u, r)
                    | _ => (u, r)
                    end in
                  '(t, r) ← scan_string fuel' r; Some (utf8 cp +:+ t, r)
                else None
            end
          else '(t, r) ← scan_string fuel' s'; Some (String c t, r)
      end
  end.

(** A number at the head of the input: an optional minus sign, then a
    single zero or a digit string that does not start with zero, then an
    optional fraction (a dot and digits) and an optional exponent (e or
    E, an optional sign, digits).  With neither fraction nor exponent it
    is an [int], otherwise a [float]. *)
Definition scan_number (s : string) : option (value * string) :=
  let '(neg, s1) :=
    match s with
    | String "-" r => (true, r)
    | _ => (false, s)
    end in
  let int_part :=
    match s1 with
    | String "0" r => Some ("0", r)
    | _ => let '(ds, r) := take_digits s1 in
           if String.eqb ds "" then None else Some (ds, r)
    end in
  '(ds, r) ← int_part;
  let '(frac, r) :=
    match r with
    | String "." r' =>
        let '(fs, r'') := take_digits r' in
        if String.eqb fs "" then ("", r) else ("." +:+ fs, r'')
    | _ => ("", r)
    end in
  let '(exp, r) :=
    match r with
    | String e r' =>
        if (Ascii.eqb e "e" || Ascii.eqb e "E")%bool then
          let '(sign, r'') :=
            match r' with
            | String "+" t => ("+", t)
            | String "-" t => ("-", t)
            | _ => ("", r')
            end in
          let '(es, r''') := take_digits r'' in
          if String.eqb es "" then ("", r)
          else (String e (sign +:+ es), r''')
        else ("", r)
    | _ => ("", r)
    end in
  if (String.eqb frac "" && String.eqb exp "")%bool then
    let n := digits_value 0 ds in
    Some (VInt (if neg then - n else n), r)
  else
    Some (VFloat ((if neg then "-" else "") +:+ ds +:+ frac +:+ exp), r).

(** [s] with the literal [lit] taken off its head. *)
Definition eat (lit s : string) : option string :=
  if String.prefix lit s
  then Some (String.substring (String.length lit)
                              (String.length s - String.length lit) s)
  else None.

Inductive parsed : Type :=
  | POk (v : value) (rest : string)
  | PFail
  | PDeep.

(** [s] after its first character, when that is [c]. *)
Definition after (c : ascii) (s : string) : option string :=
  match s with
  | String x r => if Ascii.eqb x c then Some r else None
  | EmptyString => None
  end.

(** One JSON value at the head of [s].  [parse_members] and
    [parse_elements] read the rest of an object and of an array, after
    the whitespace that follows the opening bracket or a comma.  A key
    that occurs twice keeps its first position and its last value, as
    building a Python dict does. *)
Fixpoint parse_value (fuel : nat) (s : string) : parsed :=
  match fuel with
  | O => PDeep
  | S fuel' =>
      match s with
      | EmptyString => PFail
      | String c s' =>
          if Ascii.eqb c dquote then
            match scan_string (S (String.length s')) s' with
            | Some (t, r) => POk (VStr t) r
            | None => PFail
            end
          else if Ascii.eqb c "{" then
            match after "}" (skip_ws s') with
            | Some r => POk (VDict []) r
            | None => parse_members fuel' (skip_ws s') []
            end
          else if Ascii.eqb c "[" then
            match after "]" (skip_ws s') with
            | Some r => POk (VList []) r
            | None => parse_elements fuel' (skip_ws s') []
            end
          else
            match eat "null" s, eat "true" s, eat "false" s with
            | Some r, _, _ => POk VNone r
            | _, Some r, _ => POk (VBool true) r
            | _, _, Some r => POk (VBool false) r
            | _, _, _ =>
                match scan_number s with
                | Some (v, r) => POk v r
                | None =>
                    match eat "NaN" s, eat "Infinity" s, eat "-Infinity" s with
                    | Some r, _, _ => POk (VFloat "NaN") r
                    | _, Some r, _ => POk (VFloat "Infinity") r
                    | _, _, Some r => POk (VFloat "-Infinity") r
                    | _, _, _ => PFail
                    end
                end
            end
      end
  end
with parse_members (fuel : nat) (s : string) (acc : dict) : parsed :=
  match fuel with
  | O => PDeep
  | S fuel' =>
      match after dquote s with
      | Some s' =>
          match scan_string (S (String.length s')) s' with
          | Some (k, r) =>
              match after ":" (skip_ws r) with
              | Some r =>
                  match parse_value fuel' (skip_ws r) with
                  | POk v r =>
                      let acc := dict_set k v acc in
                      match after "}" (skip_ws r), after "," (skip_ws r) with
                      | Some r, _ => POk (VDict acc) r
                      | None, Some r => parse_members fuel' (skip_ws r) acc
                      | None, None => PFail
                      end
                  | PFail => PFail
                  | PDeep => PDeep
                  end
              | None => PFail
              end
          | None => PFail
          end
      | None => PFail
      end
  end
with parse_elements (fuel : nat) (s : string) (acc : list value) : parsed :=
  match fuel with
  | O => PDeep
  | S fuel' =>
      match parse_value fuel' s with
      | POk v r =>
          let acc := (acc ++ [v])%list in
          match after "]" (skip_ws r), after "," (skip_ws r) with
          | Some r, _ => POk (VList acc) r
          | None, Some r => parse_elements fuel' (skip_ws r) acc
          | None, None => PFail
          end
      | PFail => PFail
      | PDeep => PDeep
      end
  end.

(** [json.loads(s)]: one value, surrounded by whitespace only.  Running
    out of [fuel] is reported like Python's [RecursionError]. *)
Definition loads (s : string) : loads_result :=
  match parse_value (S (String.length s)) (skip_ws s) with
  | POk v r => if String.eqb (skip_ws r) "" then LoadsOk v else LoadsDecodeError
  | PFail => LoadsDecodeError
  | PDeep => LoadsOtherError
  end.

End Json.

Arguments Json.scan_string : simpl never.

(** ** Configuration ([core/config.py]) *)

(** The settings the kernel reads through [Config.get], each with the
    default its caller passes. *)
Record Config : Type := {
  blocked_actions : list string;          (* safety.blocked_actions *)
  require_confirmation_for : list string; (* safety.require_confirmation_for *)
  forbidden_directories : list string;    (* modules.file_actions.forbidden_directories *)
  safe_directories : list string;         (* modules.file_actions.safe_directories *)
  max_file_size_mb : Z;                   (* modules.file_actions.max_file_size_mb *)
  email_enabled : bool;                   (* modules.email.enabled *)
  max_history_items : Z                   (* modules.memory.max_history_items *)
}.

(** [Config.is_action_blocked]. *)
Definition is_action_blocked (cfg : Config) (action : string) : bool :=
  bool_decide (action ∈ blocked_actions cfg).

(** [Config.requires_confirmation]. *)
Definition requires_confirmation (cfg : Config) (action : string) : bool :=
  bool_decide (action ∈ require_confirmation_for cfg).

(** ** Paths *)

(** A resolved path: the components below the root, outermost first. *)
Abbreviation path := (list string).

(** [p.relative_to(other)] returns (rather than raising [ValueError])
    exactly when the components of [other] begin those of [p]. *)
Fixpoint relative_to (p other : path) : bool :=
  match other, p with
  | [], _ => true
  | o :: other', c :: p' => String.eqb c o && relative_to p' other'
  | _ :: _, [] => false
  end.

(** [', '.join(l)]. *)
Fixpoint join (sep : string) (l : list string) : string :=
  match l with
  | [] => ""
  | [x] => x
  | x :: l' => x +:+ sep +:+ join sep l'
  end.

(** The double nearest to the integer [n], ties to the even mantissa, as
    an integer again: [n] itself up to 53 bits.  (No size reaches the
    range where a double overflows.) *)
Definition to_double (n : Z) : Z :=
  let a := Z.abs n in
  let e := Z.log2 a - 52 in
  if e <=? 0 then n
  else
    let q := a / 2 ^ e in
    let r := a mod 2 ^ e in
    let half := 2 ^ (e - 1) in
    let t := if ((half <? r) || ((r =? half) && Z.odd q))%bool
             then q + 1 else q in
    Z.sgn n * (t * 2 ^ e).

(** [st_size / (1024 * 1024)], the float [size_mb], in units of
    [2 ^ -20]: true division rounds the exact quotient to the nearest
    double, and dividing by a power of two moves no mantissa bit. *)
Definition size_mb_scaled (st_size : Z) : Z := to_double st_size.

(** [f"{size_mb:.1f}"] for [size_mb] given in units of [2 ^ -20]: the
    digits are those of the exact value rounded half-even to one
    decimal. *)
Definition format_mb (size : Z) : string :=
  let q := (size * 10) / 1048576 in
  let r := (size * 10) mod 1048576 in
  let t := if ((524288 <? r) || ((r =? 524288) && Z.odd q))%bool
           then q + 1 else q in
  pretty (t / 10) +:+ "." +:+ pretty (t mod 10).

(** ** The memory store's tables ([modules/memory.py], [_init_database]) *)

(** A row of [conversations] without its [id].  [role] and [content] are
    the bound Python values; [metadata] is the value whose [json.dumps]
    text the column holds. *)
Record conversation_row : Type := {
  timestamp : string;
  role : value;
  content : value;
  metadata : value
}.

(** The database file: [conversations] keyed by its [INTEGER PRIMARY KEY
    AUTOINCREMENT], the largest id that table has ever handed out (SQLite's
    [sqlite_sequence] entry), and [context] keyed by its [TEXT PRIMARY KEY]
    with the [value] and [updated_at] columns. *)
Record MemoryDb : Type := {
  conversations : gmap Z conversation_row;
  sequence : Z;
  context : gmap string (string * string)
}.

(** ** The world outside the kernel *)

(** What the kernel asks of its platform and of the handlers' domain
    logic.  [W] is the state of that outside world (file system, network,
    devices). *)
Class Platform (W : Type) : Type := {
  (** [Path(s).resolve()] *)
  resolve : W → string → path;
  (** [p.exists()] *)
  path_exists : W → path → bool;
  (** [p.stat().st_size] *)
  st_size : W → path → Z;
  (** the directory [os.path.expanduser] puts for a leading tilde *)
  home : W → string;
  (** [datetime.now().isoformat()] *)
  now : W → string;
  (** the private method [name] of a file, email, vision, voice, API or
      planning module applied to [params]: its effect on the world and
      the dict it returns or the exception it raises; the settings such a
      method reads for itself (time-outs, allowed domains, model names,
      step limits) are part of the world *)
  run_op : string → value → W → W * outcome dict;
  (** the methods [_recall_memory], [_get_context] and [_set_context] of
      the memory module, by name, on the database *)
  memory_op : string → value → W → MemoryDb → MemoryDb * outcome dict
}.

(** ** The pattern engine behind [re.search(pattern, s, re.IGNORECASE)]

    The fragment of regular expressions the validator's patterns are
    written in, on ASCII text. *)
Module Regex.

Inductive item : Type :=
  | Lit (c : ascii)            (* one character *)
  | OneOf (cs : string)        (* a bracketed set *)
  | Boundary                   (* backslash-b *)
  | Spaces (least : nat)       (* backslash-s, starred or plussed *)
  | Opt (c : ascii)            (* a character, question-marked *)
  | Words (alts : list string) (* a group of alternatives *).

Definition code (c : ascii) : Z := Z.of_N (N_of_ascii c).

Definition lower (c : ascii) : ascii :=
  if ((65 <=? code c) && (code c <=? 90))%bool
  then ascii_of_N (Z.to_N (code c + 32)) else c.

Definition eq_ci (a b : ascii) : bool := Ascii.eqb (lower a) (lower b).

Definition is_space (c : ascii) : bool :=
  ((code c =? 32) || ((9 <=? code c) && (code c <=? 13))
   || ((28 <=? code c) && (code c <=? 31)))%bool.

Definition is_word (c : ascii) : bool :=
  (((48 <=? code c) && (code c <=? 57)) || ((97 <=? code (lower c)) && (code (lower c) <=? 122))
   || (code c =? 95))%bool.

(** A word character on exactly one side of the position. *)
Definition at_boundary (prev : option ascii) (s : string) : bool :=
  xorb (match prev with Some c => is_word c | None => false end)
       (match s with String c _ => is_word c | EmptyString => false end).

(** [s] after the word [w], compared without case, and the last
    character consumed. *)
Fixpoint strip_ci (w : string) (prev : option ascii) (s : string)
  : option (option ascii * string) :=
  match w with
  | EmptyString => Some (prev, s)
  | String c w' =>
      match s with
      | String x s' => if eq_ci x c then strip_ci w' (Some x) s' else None
      | EmptyString => None
      end
  end.

(** Whether the items match at the head of [s]; [prev] is the character
    just before it. *)
Fixpoint match_here (items : list item) (prev : option ascii) (s : string)
  : bool :=
  match items with
  | [] => true
  | Lit c :: rest =>
      match s with
      | String x s' => eq_ci x c && match_here rest (Some x) s'
      | EmptyString => false
      end
  | OneOf cs :: rest =>
      match s with
      | String x s' =>
          existsb (eq_ci x) (list_ascii_of_string cs) && match_here rest (Some x) s'
      | EmptyString => false
      end
  | Boundary :: rest => at_boundary prev s && match_here rest prev s
  | Spaces least :: rest =>
      (fix spaces (seen : nat) (prev : option ascii) (s : string) : bool :=
         ((least <=? seen)%nat && match_here rest prev s)
         || match s with
            | String x s' => is_space x && spaces (S seen) (Some x) s'
            | EmptyString => false
            end) O prev s
  | Opt c :: rest =>
      match s with
      | String x s' => eq_ci x c && match_here rest (Some x) s'
      | EmptyString => false
      end
      || match_here rest prev s
  | Words alts :: rest =>
      existsb (λ w, match strip_ci w prev s with
                    | Some (p, s') => match_here rest p s'
                    | None => false
                    end) alts
  end.

(** Whether the items match somewhere in [s]. *)
Fixpoint search_from (items : list item) (prev : option ascii) (s : string)
  : bool :=
  match_here items prev s
  || match s with
     | String x s' => search_from items (Some x) s'
     | EmptyString => false
     end.

Definition search (items : list item) (s : string) : bool :=
  search_from items None s.

Definition lits (s : string) : list item := Lit <$> list_ascii_of_string s.

End Regex.

(** ** The policy engine ([core/safety.py]) *)

Section Safety.

Context {W : Type} `{Platform W}.
Variable cfg : Config.

(** The loop over [forbidden_dirs]: the first configured directory whose
    resolved form contains [p]. *)
Fixpoint forbidden_loop (w : W) (p : path) (forbidden_dirs : list string)
  : option string :=
  match forbidden_dirs with
  | [] => None
  | forbidden :: rest =>
      if relative_to p (resolve w forbidden) then Some forbidden
      else forbidden_loop w p rest
  end.

(** [Path(os.path.expanduser(f"~/{safe_dir}")).resolve()]. *)
Definition safe_path (w : W) (safe_dir : string) : path :=
  resolve w (home w +:+ "/" +:+ safe_dir).

(** The loop over [safe_dirs]: the final value of [is_safe]. *)
Fixpoint safe_loop (w : W) (p : path) (safe_dirs : list string) : bool :=
  match safe_dirs with
  | [] => false
  | safe_dir :: rest =>
      if relative_to p (safe_path w safe_dir) then true
      else safe_loop w p rest
  end.

(** [SafetyValidator._validate_file_action]. *)
Definition _validate_file_action (w : W) (action : string) (params : value)
  : outcome (bool * string) :=
  file_path ← params_get params "path" (VStr "");
  if negb (truthy file_path) then Ret (false, "File path is required")
  else
    match file_path with
    | VStr s =>
        let p := resolve w s in
        match forbidden_loop w p (forbidden_directories cfg) with
        | Some forbidden =>
            Ret (false, "Access to '" +:+ forbidden +:+ "' directory is forbidden")
        | None =>
            let safe_dirs := safe_directories cfg in
            if (match safe_dirs with [] => false | _ => true end
                && negb (safe_loop w p safe_dirs))%bool
            then Ret (false, "File access is only allowed in safe directories: "
                             +:+ join ", " safe_dirs)
            else if (bool_decide (action ∈ ["file_read"; "file_write"])
                     && path_exists w p
                     && (max_file_size_mb cfg * 1048576
                         <? size_mb_scaled (st_size w p)))%bool
            then Ret (false, "File size ("
                             +:+ format_mb (size_mb_scaled (st_size w p))
                             +:+ "MB) exceeds maximum allowed size ("
                             +:+ pretty (max_file_size_mb cfg) +:+ "MB)")
            else Ret (true, "File action is safe")
        end
    | _ => Raise ("expected str, bytes or os.PathLike object, not "
                  +:+ type_name file_path)
    end.

(** [SafetyValidator._validate_email_action]. *)
Definition _validate_email_action (action : string) (params : value)
  : outcome (bool * string) :=
  if negb (email_enabled cfg) then Ret (false, "Email module is disabled")
  else if String.eqb action "email_send" then
    recipient ← params_get params "recipient" VNone;
    if negb (truthy recipient) then Ret (false, "Recipient email is required")
    else
      subject ← params_get params "subject" VNone;
      body ← params_get params "body" VNone;
      if (negb (truthy subject) && negb (truthy body))%bool
      then Ret (false, "Email must have subject or body")
      else Ret (true, "Email action is safe")
  else Ret (true, "Email action is safe").

(** [dangerous_patterns]: each source text with its reading. *)
Definition dangerous_patterns : list (string * list Regex.item) :=
  let b := Regex.Boundary in
  let l := Regex.lits in
  [ ("\brm\s+-rf", b :: l "rm" ++ Regex.Spaces 1 :: l "-rf");
    ("\bformat\b", b :: l "format" ++ [b]);
    ("\bdel\s+/[fqs]", b :: l "del" ++ Regex.Spaces 1 :: l "/" ++ [Regex.OneOf "fqs"]);
    ("\brd\s+/s", b :: l "rd" ++ Regex.Spaces 1 :: l "/s");
    (">\s*\\?/dev/", l ">" ++ Regex.Spaces 0 :: Regex.Opt Json.backslash :: l "/dev/");
    ("\bregedit\b", b :: l "regedit" ++ [b]);
    ("\breg\s+(delete|add)",
     b :: l "reg" ++ [Regex.Spaces 1; Regex.Words ["delete"; "add"]]) ]%list.

(** [SafetyValidator._validate_system_command]. *)
Definition _validate_system_command (params : value)
  : outcome (bool * string) :=
  command ← params_get params "command" (VStr "");
  if negb (truthy command) then Ret (false, "Command is required")
  else
    match command with
    | VStr c =>
        match List.find (λ pattern, Regex.search pattern.2 c) dangerous_patterns with
        | Some pattern =>
            Ret (false, "Command contains potentially dangerous operation: "
                        +:+ pattern.1)
        | None => Ret (true, "System command is safe")
        end
    | _ => Raise ("expected string or bytes-like object, got '"
                  +:+ type_name command +:+ "'")
    end.

(** [SafetyValidator.validate_action]. *)
Definition validate_action (w : W) (action : string) (params : value)
  : outcome (bool * string) :=
  if is_action_blocked cfg action then
    Ret (false, "Action '" +:+ action +:+ "' is blocked for safety reasons")
  else if startswith action "file_" then _validate_file_action w action params
  else if startswith action "email_" then _validate_email_action action params
  else if String.eqb action "system_command" then _validate_system_command params
  else Ret (true, "Action is safe").

(** [SafetyValidator.get_safe_alternative]; [reason] is not consulted. *)
Definition get_safe_alternative (action reason : string) : string :=
  if String.eqb action "file_delete" then
    "Instead of deleting, consider moving the file to a safe location or creating a backup first."
  else if String.eqb action "format_drive" then
    "Formatting drives is not supported. Please use Windows Disk Management for such operations."
  else if String.eqb action "modify_registry" then
    "Registry modifications are not supported for safety. Please use Registry Editor manually if needed."
  else if String.eqb action "system_command" then
    "This command appears unsafe. Please run it manually if you're certain it's safe."
  else
    "This action cannot be performed automatically. Please consider doing it manually with appropriate caution.".

End Safety.

(** ** The memory store ([modules/memory.py]) *)

(** [SELECT COUNT( * ) FROM conversations]. *)
Definition row_count (t : gmap Z conversation_row) : Z := Z.of_nat (size t).

(** [SELECT id FROM conversations ORDER BY id ASC]. *)
Definition ids_ascending (t : gmap Z conversation_row) : list Z :=
  merge_sort Z.le (elements (dom t)).

(** [... ORDER BY id ASC LIMIT k], for [k >= 0]. *)
Definition oldest_ids (k : Z) (t : gmap Z conversation_row) : list Z :=
  take (Z.to_nat k) (ids_ascending t).

(** [DELETE FROM conversations WHERE id IN (ids)]. *)
Definition delete_ids (ids : list Z) (t : gmap Z conversation_row)
  : gmap Z conversation_row :=
  filter (λ kv, kv.1 ∉ ids) t.

(** The rowid an AUTOINCREMENT table gives its next row: one more than
    the largest id it has ever held. *)
Definition next_id (db : MemoryDb) : Z :=
  Z.max (sequence db) (foldr Z.max 0 (elements (dom (conversations db)))) + 1.

(** Whether [sqlite3] can bind the value as a statement parameter: not a
    list or a dict, and an [int] only within 64 bits. *)
Definition bindable (v : value) : bool :=
  match v with
  | VList _ | VDict _ => false
  | VInt n => ((- 2 ^ 63 <=? n) && (n <? 2 ^ 63))%bool
  | _ => true
  end.

(** Whether SQLite stores the bound value as NULL: [None], and NaN. *)
Definition stored_as_null (v : value) : bool :=
  match v with
  | VNone => true
  | VFloat l => String.eqb l "NaN"
  | _ => false
  end.

(** What [sqlite3] says of a value it cannot bind as parameter [i]. *)
Definition binding_error (i : Z) (v : value) : string :=
  match v with
  | VInt _ => "Python int too large to convert to SQLite INTEGER"
  | _ => "Error binding parameter " +:+ pretty i +:+ ": type '"
         +:+ type_name v +:+ "' is not supported"
  end.

(** The [INSERT INTO conversations] statement of [_save_memory]: [role]
    and [content] are bound as the second and third parameter, in that
    order, and both columns are declared [NOT NULL]. *)
Definition insert_conversation (row : conversation_row) (db : MemoryDb)
  : outcome MemoryDb :=
  if negb (bindable (role row)) then Raise (binding_error 2 (role row))
  else if negb (bindable (content row)) then
    Raise (binding_error 3 (content row))
  else if stored_as_null (role row) then
    Raise "NOT NULL constraint failed: conversations.role"
  else if stored_as_null (content row) then
    Raise "NOT NULL constraint failed: conversations.content"
  else
    let id := next_id db in
    Ret {| conversations := <[id := row]> (conversations db);
           sequence := id;
           context := context db |}.

(** The retention clean-up that ends [_save_memory]. *)
Definition evict_oldest (max_history : Z) (db : MemoryDb) : MemoryDb :=
  let count := row_count (conversations db) in
  if max_history <? count then
    {| conversations :=
         delete_ids (oldest_ids (count - max_history) (conversations db))
                    (conversations db);
       sequence := sequence db;
       context := context db |}
  else db.

Definition success_false (error : string) : dict :=
  [("success", VBool false); ("error", VStr error)].

(** [MemoryModule._save_memory].  [timestamp] is
    [datetime.now().isoformat()].  The database is returned as the call
    leaves it, whether it returns or raises. *)
Definition _save_memory (max_history : Z) (timestamp : string)
    (params : value) (db : MemoryDb) : MemoryDb * outcome dict :=
  match params_get params "role" (VStr "user"),
        params_get params "content" (VStr ""),
        params_get params "metadata" (VDict []) with
  | Ret role, Ret content, Ret metadata =>
      if negb (truthy content) then (db, Ret (success_false "Content is required"))
      else
        match insert_conversation
                {| timestamp := timestamp; role := role; content := content;
                   metadata := metadata |} db with
        | Ret db' =>
            (evict_oldest max_history db',
             Ret [("success", VBool true); ("message", VStr "Memory saved")])
        | Raise e => (db, Raise e)
        end
  | Raise e, _, _ | _, Raise e, _ | _, _, Raise e => (db, Raise e)
  end.

(** [MemoryModule._clear_memory]. *)
Definition _clear_memory (params : value) (db : MemoryDb)
  : MemoryDb * outcome dict :=
  match params_get params "clear_context" (VBool false) with
  | Ret clear_context =>
      ({| conversations := ∅;
          sequence := sequence db;
          context := if truthy clear_context then ∅ else context db |},
       Ret [("success", VBool true); ("message", VStr "Memory cleared")])
  | Raise e => (db, Raise e)
  end.

(** The [try: return handler(params) except Exception as e: ...] that ends
    every module's [execute]. *)
Definition caught (action : string) (r : outcome dict) : dict :=
  match r with
  | Ret d => d
  | Raise e => success_false ("Failed to execute " +:+ action +:+ ": " +:+ e)
  end.

Section Memory.

Context {W : Type} `{Platform W}.
Variable cfg : Config.

(** [MemoryModule.execute]: never raises. *)
Definition MemoryModule_execute (action : string) (params : value)
    (w : W) (db : MemoryDb) : MemoryDb * dict :=
  let run (r : MemoryDb * outcome dict) := (r.1, caught action r.2) in
  if String.eqb action "memory_save" then
    run (_save_memory (max_history_items cfg) (now w) params db)
  else if String.eqb action "memory_recall" then
    run (memory_op "_recall_memory" params w db)
  else if String.eqb action "memory_get_context" then
    run (memory_op "_get_context" params w db)
  else if String.eqb action "memory_set_context" then
    run (memory_op "_set_context" params w db)
  else if String.eqb action "memory_clear" then
    run (_clear_memory params db)
  else (db, success_false ("Unknown memory action: " +:+ action)).

End Memory.

(** ** The handlers' entry points ([modules/*.py]) *)

(** What a call works on: the outside world and the memory database. *)
Record State (W : Type) : Type := {
  world : W;
  memory : MemoryDb
}.
Arguments world {W} s.
Arguments memory {W} s.

(** [action_map.get(action)]. *)
Fixpoint lookup_method (action : string) (action_map : list (string * string))
  : option string :=
  match action_map with
  | [] => None
  | (name, method) :: rest =>
      if String.eqb action name then Some method else lookup_method action rest
  end.

Section Handlers.

Context {W : Type} `{Platform W}.
Variable cfg : Config.

(** The tail shared by every [execute]: look the method up, call it
    under [try], turn an exception into a failure dict. *)
Definition dispatch (kind : string) (action_map : list (string * string))
    (action : string) (params : value) (w : W) : W * dict :=
  match lookup_method action action_map with
  | None => (w, success_false ("Unknown " +:+ kind +:+ " action: " +:+ action))
  | Some method =>
      let r := run_op method params w in (r.1, caught action r.2)
  end.

Definition file_action_map : list (string * string) :=
  [ ("file_read", "FileActionsModule._read_file");
    ("file_write", "FileActionsModule._write_file");
    ("file_delete", "FileActionsModule._delete_file");
    ("file_move", "FileActionsModule._move_file");
    ("file_copy", "FileActionsModule._copy_file");
    ("file_list", "FileActionsModule._list_files");
    ("file_info", "FileActionsModule._file_info") ].

(** The dict both guarded modules return for an action that awaits
    confirmation. *)
Definition confirmation_request (action : string) (params : value) : dict :=
  [ ("success", VBool false);
    ("requires_confirmation", VBool true);
    ("message", VStr ("Please confirm: " +:+ action));
    ("params", params) ].

(** [FileActionsModule.execute].  The validator runs outside the [try]:
    what it raises leaves [execute]. *)
Definition FileActionsModule_execute (action : string) (params : value)
    (w : W) : W * outcome dict :=
  match validate_action cfg w action params with
  | Raise e => (w, Raise e)
  | Ret (is_safe, message) =>
      if negb is_safe then
        (w, Ret [ ("success", VBool false);
                  ("error", VStr message);
                  ("suggestion", VStr (get_safe_alternative action message)) ])
      else if requires_confirmation cfg action then
        (w, Ret (confirmation_request action params))
      else
        let r := dispatch "file" file_action_map action params w in
        (r.1, Ret r.2)
  end.

Definition email_action_map : list (string * string) :=
  [ ("email_send", "EmailModule._send_email");
    ("email_draft", "EmailModule._create_draft") ].

(** [EmailModule.execute]. *)
Definition EmailModule_execute (action : string) (params : value)
    (w : W) : W * outcome dict :=
  match validate_action cfg w action params with
  | Raise e => (w, Raise e)
  | Ret (is_safe, message) =>
      if negb is_safe then (w, Ret (success_false message))
      else if requires_confirmation cfg action then
        (w, Ret (confirmation_request action params))
      else
        let r := dispatch "email" email_action_map action params w in
        (r.1, Ret r.2)
  end.

(** [VisionModule.execute], [VoiceModule.execute], [APIModule.execute]
    and [PlanningModule.execute]: dispatch only. *)
Definition VisionModule_execute :=
  dispatch "vision"
    [ ("image_describe", "VisionModule._describe_image");
      ("image_ocr", "VisionModule._extract_text");
      ("image_analyze", "VisionModule._analyze_image") ].

Definition VoiceModule_execute :=
  dispatch "voice"
    [ ("voice_transcribe", "VoiceModule._transcribe_audio");
      ("voice_record", "VoiceModule._record_audio") ].

Definition APIModule_execute :=
  dispatch "API"
    [ ("api_get", "APIModule._api_get");
      ("api_post", "APIModule._api_post") ].

Definition PlanningModule_execute :=
  dispatch "planning"
    [ ("plan_task", "PlanningModule._plan_task");
      ("plan_validate", "PlanningModule._validate_plan") ].

End Handlers.

(** ** The router ([core/module_router.py]) *)

Section Router.

Context {W : Type} `{Platform W}.
Variable cfg : Config.

(** The uniform handler contract: [execute(action, params)]. *)
Definition handler : Type :=
  string → value → State W → State W * outcome dict.

Definition on_world (f : string → value → W → W * outcome dict) : handler :=
  λ action params st,
    let r := f action params (world st) in
    ({| world := r.1; memory := memory st |}, r.2).

Definition total (f : string → value → W → W * dict)
  : string → value → W → W * outcome dict :=
  λ action params w, let r := f action params w in (r.1, Ret r.2).

(** [self.modules]. *)
Definition modules : list (string * handler) :=
  [ ("file", on_world (FileActionsModule_execute cfg));
    ("email", on_world (EmailModule_execute cfg));
    ("vision", on_world (total VisionModule_execute));
    ("voice", on_world (total VoiceModule_execute));
    ("api", on_world (total APIModule_execute));
    ("memory", λ action params st,
       let r := MemoryModule_execute cfg action params (world st) (memory st) in
       ({| world := world st; memory := r.1 |}, Ret r.2));
    ("planning", on_world (total PlanningModule_execute)) ].

(** [self.action_map], in insertion order. *)
Definition action_map : list (string * string) :=
  [ ("file_", "file"); ("email_", "email"); ("image_", "vision");
    ("voice_", "voice"); ("api_", "api"); ("memory_", "memory");
    ("plan_", "planning") ].

(** The prefix loop that opens [route]: the module of the first prefix
    the action starts with. *)
Fixpoint find_module (action : string) (prefixes : list (string * string))
  : option string :=
  match prefixes with
  | [] => None
  | (prefix, mod_name) :: rest =>
      if startswith action prefix then Some mod_name
      else find_module action rest
  end.

(** [self.modules.get(module_name)]. *)
Fixpoint modules_get (module_name : string) (ms : list (string * handler))
  : option handler :=
  match ms with
  | [] => None
  | (name, m) :: rest =>
      if String.eqb module_name name then Some m else modules_get module_name rest
  end.

(** [ModuleRouter.route]. *)
Definition route (action : string) (params : value) (st : State W)
  : State W * dict :=
  match find_module action action_map with
  | None =>
      (st, [ ("success", VBool false);
             ("error", VStr ("Unknown action: " +:+ action));
             ("suggestion", VStr "Available action types: file_*, email_*, image_*, voice_*, api_*, memory_*, plan_*") ])
  | Some module_name =>
      match modules_get module_name modules with
      | None =>
          (st, success_false ("Module '" +:+ module_name +:+ "' not found"))
      | Some module =>
          match module action params st with
          | (st', Ret result) =>
              (st', dict_set "action" (VStr action)
                      (dict_set "module" (VStr module_name) result))
          | (st', Raise e) =>
              (st', [ ("success", VBool false);
                      ("error", VStr ("Module execution failed: " +:+ e));
                      ("module", VStr module_name);
                      ("action", VStr action) ])
          end
      end
  end.

Definition missing_action : dict :=
  success_false "Tool call missing 'action' field".

(** The [for tool_call in tool_calls] loop of [process_tool_calls], with
    [results] as built so far.  [route] calls [action.startswith], which
    only a [str] has. *)
Fixpoint process_loop (tool_calls : list value) (results : list dict)
    (st : State W) : State W * outcome (list dict) :=
  match tool_calls with
  | [] => (st, Ret results)
  | tool_call :: rest =>
      match params_get tool_call "action" VNone,
            params_get tool_call "params" (VDict []) with
      | Ret action, Ret params =>
          if negb (truthy action) then
            process_loop rest (results ++ [missing_action]) st
          else
            match action with
            | VStr a =>
                let r := route a params st in
                process_loop rest (results ++ [r.2]) r.1
            | _ => (st, Raise ("'" +:+ type_name action
                               +:+ "' object has no attribute 'startswith'"))
            end
      | Raise e, _ | _, Raise e => (st, Raise e)
      end
  end.

(** [ModuleRouter.process_tool_calls]. *)
Definition process_tool_calls (tool_calls : list value) (st : State W)
  : State W * outcome (list dict) :=
  process_loop tool_calls [] st.

End Router.

(** ** A concrete platform

    A file system without symbolic links, where resolving a path is
    lexical, and handlers whose methods only count their invocations. *)
Module Posix.

(** [s.split('/')]. *)
Fixpoint components (s : string) : list string :=
  match s with
  | EmptyString => [""]
  | String c s' =>
      match components s' with
      | x :: xs => if Ascii.eqb c "/" then "" :: x :: xs else String c x :: xs
      | [] => [String c ""]
      end
  end.

(** One component further down from [above] (innermost first). *)
Definition walk (above : path) (part : string) : path :=
  if (String.eqb part "" || String.eqb part ".")%bool then above
  else if String.eqb part ".." then tail above
  else part :: above.

(** [Path(s).resolve()] from the working directory [cwd]. *)
Definition lexical_resolve (cwd : path) (s : string) : path :=
  rev (fold_left walk (components s)
                 (if startswith s "/" then [] else rev cwd)).

(** The world is the number of handler methods run so far. *)
#[global] Instance counting : Platform nat := {|
  resolve := λ _, lexical_resolve ["home"; "user"];
  path_exists := λ _ _, false;
  st_size := λ _ _, 0;
  home := λ _, "/home/user";
  now := λ _, "2024-01-01T00:00:00";
  run_op := λ _ _ calls, (S calls, Ret [("success", VBool true)]);
  memory_op := λ _ _ _ db, (db, Ret [("success", VBool true)])
|}.

Definition empty_db : MemoryDb :=
  {| conversations := ∅; sequence := 0; context := ∅ |}.

Definition start : State nat := {| world := O; memory := empty_db |}.

End Posix.

(** ** Vocabulary of the statements *)

(** The object is a dict whose "action" entry is present and not [None]. *)
Definition action_non_null (v : value) : bool :=
  match v with
  | VDict d =>
      match dict_get "action" d with
      | Some VNone | None => false
      | Some _ => true
      end
  | _ => false
  end.

(** A tool call as the model is told to write it, with a brace inside a
    string literal. *)
Definition brace_in_literal : string :=
  Json.dq "{'action':'x','params':{'note':'a { b'}}".

(** A [memory_save] request that stores a turn: its content is not empty
    (it is truthy), and SQLite takes its content and its role, given or
    defaulted, as values of a NOT NULL column. *)
Definition stores_turn (params : value) : bool :=
  match params with
  | VDict d =>
      let content := default (VStr "") (dict_get "content" d) in
      let role := default (VStr "user") (dict_get "role" d) in
      truthy content
      && (bindable role && bindable content)
      && negb (stored_as_null role || stored_as_null content)
  | _ => false
  end.

(** The database as each of a series of [_save_memory] calls leaves it;
    a call is given by its timestamp and its [params]. *)
Fixpoint save_all (max_history : Z) (turns : list (string * value))
    (db : MemoryDb) : list MemoryDb :=
  match turns with
  | [] => []
  | (timestamp, params) :: rest =>
      let db' := (_save_memory max_history timestamp params db).1 in
      db' :: save_all max_history rest db'
  end.

(** A tool call [process_tool_calls] can hand to [route]: a dict whose
    "action", when there is one and it is truthy, is a string. *)
Definition names_action (tool_call : value) : bool :=
  match tool_call with
  | VDict d =>
      match dict_get "action" d with
      | Some (VStr _) | None => true
      | Some v => negb (truthy v)
      end
  | _ => false
  end.

Section Answers.

Context {W : Type} `{Platform W}.
Variable cfg : Config.

(** What one request is owed, from the state it is reached in: the
    synthetic failure when it names no action, the outcome of [route]
    otherwise; and the state that leaves. *)
Definition answer (tool_call : value) (st : State W) : State W * dict :=
  match tool_call with
  | VDict d =>
      match dict_get "action" d with
      | Some (VStr a) =>
          if String.eqb a "" then (st, missing_action)
          else route cfg a (default (VDict []) (dict_get "params" d)) st
      | _ => (st, missing_action)
      end
  | _ => (st, missing_action)
  end.

(** The state in which the request at position [i] is reached. *)
Fixpoint state_before (i : nat) (tool_calls : list value) (st : State W)
  : State W :=
  match i, tool_calls with
  | S i', tool_call :: rest => state_before i' rest (answer tool_call st).1
  | _, _ => st
  end.

End Answers.

(** Configurations the statements are tried on. *)
Definition default_config : Config :=
  {| blocked_actions := [];
     require_confirmation_for := [];
     forbidden_directories := [];
     safe_directories := [];
     max_file_size_mb := 100;
     email_enabled := false;
     max_history_items := 1000 |}.

Definition home_user_forbidden : Config :=
  {| blocked_actions := [];
     require_confirmation_for := [];
     forbidden_directories := ["/home/user"];
     safe_directories := [];
     max_file_size_mb := 100;
     email_enabled := false;
     max_history_items := 1000 |}.

Definition documents_only : Config :=
  {| blocked_actions := [];
     require_confirmation_for := [];
     forbidden_directories := [];
     safe_directories := ["Documents"];
     max_file_size_mb := 100;
     email_enabled := false;
     max_history_items := 1000 |}.

Definition blocks_memory_save : Config :=
  {| blocked_actions := ["memory_save"];
     require_confirmation_for := [];
     forbidden_directories := [];
     safe_directories := [];
     max_file_size_mb := 100;
     email_enabled := false;
     max_history_items := 1000 |}.

Definition confirms_deletions : Config :=
  {| blocked_actions := [];
     require_confirmation_for := ["file_delete"; "memory_clear"];
     forbidden_directories := [];
     safe_directories := [];
     max_file_size_mb := 100;
     email_enabled := false;
     max_history_items := 1000 |}.

(** A store that holds one turn. *)
Definition one_turn : State nat :=
  {| world := O;
     memory := (_save_memory 1000 "2024-01-01T00:00:00"
                  (VDict [("content", VStr "hello")]) Posix.empty_db).1 |}.


(** ** Vocabulary of the further properties *)

(** [c] occurs in [s]. *)
Fixpoint occurs (c : ascii) (s : string) : bool :=
  match s with
  | EmptyString => false
  | String x s' => (Ascii.eqb x c || occurs c s')%bool
  end.

(** An index found in the rest of a text, seen from [k] characters
    earlier; [-1] stays not-found. *)
Definition shift (k r : Z) : Z := if r =? -1 then -1 else k + r.

(** The brace-matched span that starts [obj] is all of [obj]. *)
Definition matched_span (obj : string) : bool :=
  startswith obj "{"
  && bool_decide (scan_braces obj (String.length obj) 0 0 0 = (0, str_len obj)).

(** What the loop does with the decoder's answer for one span. *)
Definition keep (r : loads_result) (later : option (list value))
  : option (list value) :=
  match r with
  | LoadsOk v =>
      match contains_action v with
      | Ret true => (v ::.) <$> later
      | Ret false => later
      | Raise _ => Some []
      end
  | LoadsDecodeError => later
  | LoadsOtherError => Some []
  end.

(** A text laid out as blocks, each after some prose, and closing prose. *)
Fixpoint layout (blocks : list (string * string)) (closing : string) : string :=
  match blocks with
  | [] => closing
  | (prose, obj) :: rest => prose +:+ obj +:+ layout rest closing
  end.

(** Whether [s] never closes a brace it has not opened itself, [spare]
    braces being open where it starts. *)
Fixpoint never_closes (spare : nat) (s : string) : bool :=
  match s with
  | EmptyString => true
  | String c s' =>
      if Ascii.eqb c "{" then never_closes (S spare) s'
      else if Ascii.eqb c "}" then
        match spare with
        | O => false
        | S fewer => never_closes fewer s'
        end
      else never_closes spare s'
  end.

(** ** Writing JSON: a model of [json.dumps] *)
Module JsonText.

Definition hex_char (n : Z) : ascii :=
  ascii_of_N (Z.to_N (if n <? 10 then 48 + n else 87 + n)).

(** A backslash-u escape of a 16-bit unit. *)
Definition u_escape (u : Z) : string :=
  String Json.backslash
    (String "u" (String (hex_char (u / 4096 mod 16))
       (String (hex_char (u / 256 mod 16))
          (String (hex_char (u / 16 mod 16))
             (String (hex_char (u mod 16)) EmptyString))))).

(** The escape of a code point: as a surrogate pair beyond 16 bits. *)
Definition cp_escape (cp : Z) : string :=
  if cp <? 65536 then u_escape cp
  else u_escape (55296 + (cp - 65536) / 1024)
       +:+ u_escape (56320 + (cp - 65536) mod 1024).

Definition short_escape (c : ascii) : string :=
  String Json.backslash (String c EmptyString).

(** The body of a string literal with [ensure_ascii]: printable ASCII
    stands for itself, except the quote and the backslash; anything else
    is escaped, a UTF-8 sequence as its code point. *)
Fixpoint escape (s : string) : string :=
  match s with
  | EmptyString => EmptyString
  | String c r =>
      let n := Json.code c in
      if Ascii.eqb c Json.dquote then short_escape Json.dquote +:+ escape r
      else if Ascii.eqb c Json.backslash then short_escape Json.backslash +:+ escape r
      else if n =? 10 then short_escape "n" +:+ escape r
      else if n =? 13 then short_escape "r" +:+ escape r
      else if n =? 9 then short_escape "t" +:+ escape r
      else if n =? 8 then short_escape "b" +:+ escape r
      else if n =? 12 then short_escape "f" +:+ escape r
      else if ((32 <=? n) && (n <=? 126))%bool then String c (escape r)
      else if n <? 192 then u_escape n +:+ escape r
      else
        match r with
        | String c2 r2 =>
            if n <? 224 then
              cp_escape ((n - 192) * 64 + (Json.code c2 - 128)) +:+ escape r2
            else
              match r2 with
              | String c3 r3 =>
                  if n <? 240 then
                    cp_escape (((n - 224) * 64 + (Json.code c2 - 128)) * 64
                               + (Json.code c3 - 128)) +:+ escape r3
                  else
                    match r3 with
                    | String c4 r4 =>
                        cp_escape ((((n - 240) * 64 + (Json.code c2 - 128)) * 64
                                    + (Json.code c3 - 128)) * 64
                                   + (Json.code c4 - 128)) +:+ escape r4
                    | EmptyString => u_escape n +:+ escape r
                    end
              | EmptyString => u_escape n +:+ escape r
              end
        | EmptyString => u_escape n
        end
  end.

Definition quote (s : string) : string :=
  String Json.dquote (escape s +:+ String Json.dquote EmptyString).

(** [json.dumps(v)] with its default separators.  A float is written by
    its lexeme, which reads back as the same float; Python writes the
    shortest text that does. *)
Fixpoint dumps (v : value) : string :=
  match v with
  | VNone => "null"
  | VBool b => if b then "true" else "false"
  | VInt n => pretty n
  | VFloat l => l
  | VStr s => quote s
  | VList l => "[" +:+ join ", " (map dumps l) +:+ "]"
  | VDict d =>
      "{" +:+ join ", " (map (λ kv, quote kv.1 +:+ ": " +:+ dumps kv.2) d) +:+ "}"
  end.

End JsonText.

(** ** The rest of the memory store ([modules/memory.py]) *)

(** What Python reads back from a TEXT column that was given [v]: numbers
    come back as their text, NULL as [None]. *)
Definition sql_read (float_text : string → string) (v : value) : value :=
  match v with
  | VStr s => VStr s
  | VInt n => VStr (pretty n)
  | VBool b => VStr (if b then "1" else "0")
  | VFloat l => if stored_as_null v then VNone else VStr (float_text l)
  | VNone | VList _ | VDict _ => VNone
  end.

(** [SELECT ... FROM conversations ORDER BY id DESC]. *)
Definition rows_descending (t : gmap Z conversation_row)
  : list conversation_row :=
  omap (λ i, t !! i) (reverse (ids_ascending t)).

(** [... LIMIT k]: a negative limit is no limit. *)
Definition limit_rows {A} (k : Z) (rows : list A) : list A :=
  if k <? 0 then rows else take (Z.to_nat k) rows.

Section Store.

(** [json.dumps] and [json.loads]. *)
Variable json_dumps : value → string.
Variable json_loads : string → loads_result.
(** The message of the exception [json.loads] raises on a text it refuses. *)
Variable loads_error : string → string.
(** The text SQLite keeps for a float given to a TEXT column. *)
Variable float_text : string → string.
(** What a method does when the parameters it binds are of other types
    than those spelled out below. *)
Variable other_query : string → value → MemoryDb → MemoryDb * outcome dict.

(** [json.loads(row[3]) if row[3] else {}]. *)
Definition read_metadata (text : string) : outcome value :=
  if String.eqb text "" then Ret (VDict [])
  else match json_loads text with
       | LoadsOk v => Ret v
       | LoadsDecodeError | LoadsOtherError => Raise (loads_error text)
       end.

(** One pass of the loop that builds [history]. *)
Definition history_entry (row : conversation_row) : outcome value :=
  md ← read_metadata (json_dumps (metadata row));
  Ret (VDict [ ("timestamp", VStr (timestamp row));
               ("role", sql_read float_text (role row));
               ("content", sql_read float_text (content row));
               ("metadata", md) ]).

Fixpoint history_of (rows : list conversation_row) : outcome (list value) :=
  match rows with
  | [] => Ret []
  | row :: rest =>
      entry ← history_entry row;
      later ← history_of rest;
      Ret (entry :: later)
  end.

(** [WHERE role = ?] with a text parameter. *)
Definition role_is (r : string) (row : conversation_row) : bool :=
  match sql_read float_text (role row) with
  | VStr s => String.eqb s r
  | _ => false
  end.

(** [MemoryModule._recall_memory], for an integer limit and a role filter
    that is absent, falsy or a string. *)
Definition _recall_memory (params : value) (db : MemoryDb)
  : MemoryDb * outcome dict :=
  match params_get params "limit" (VInt 10), params_get params "role" VNone with
  | Ret limit, Ret role_filter =>
      let k := match limit with
               | VInt n => if bindable limit then Some n else None
               | VBool b => Some (if b then 1 else 0)
               | _ => None
               end in
      let selected :=
        if truthy role_filter then
          match role_filter with
          | VStr r =>
              Some (filter (λ row, role_is r row = true)
                           (rows_descending (conversations db)))
          | _ => None
          end
        else Some (rows_descending (conversations db)) in
      match k, selected with
      | Some k, Some rows =>
          (db,
           history ← history_of (limit_rows k rows);
           Ret [ ("success", VBool true);
                 ("history", VList (reverse history));
                 ("count", VInt (Z.of_nat (length (reverse history)))) ])
      | _, _ => other_query "_recall_memory" params db
      end
  | Raise e, _ | _, Raise e => (db, Raise e)
  end.

(** [MemoryModule._get_context], for a key that is falsy or a string. *)
Definition _get_context (params : value) (db : MemoryDb)
  : MemoryDb * outcome dict :=
  match params_get params "key" VNone with
  | Ret key =>
      if negb (truthy key) then (db, Ret (success_false "Key is required"))
      else
        match key with
        | VStr k =>
            match context db !! k with
            | Some (text, _) =>
                (db,
                 match json_loads text with
                 | LoadsOk v =>
                     Ret [ ("success", VBool true); ("key", key); ("value", v) ]
                 | LoadsDecodeError | LoadsOtherError => Raise (loads_error text)
                 end)
            | None =>
                (db, Ret (success_false ("Context key '" +:+ k +:+ "' not found")))
            end
        | _ => other_query "_get_context" params db
        end
  | Raise e => (db, Raise e)
  end.

(** [MemoryModule._set_context], for a key that is falsy or a string;
    [timestamp] is [datetime.now().isoformat()]. *)
Definition _set_context (timestamp : string) (params : value) (db : MemoryDb)
  : MemoryDb * outcome dict :=
  match params_get params "key" VNone, params_get params "value" VNone with
  | Ret key, Ret v =>
      if negb (truthy key) then (db, Ret (success_false "Key is required"))
      else
        match key with
        | VStr k =>
            ({| conversations := conversations db;
                sequence := sequence db;
                context := <[k := (json_dumps v, timestamp)]> (context db) |},
             Ret [ ("success", VBool true);
                   ("message", VStr ("Context '" +:+ k +:+ "' saved")) ])
        | _ => other_query "_set_context" params db
        end
  | Raise e, _ | _, Raise e => (db, Raise e)
  end.

End Store.

(** A message for every refused text. *)
Definition loads_message : string → string := λ _, "Expecting value".

(** A handler of unmodelled queries that only refuses. *)
Definition no_other_query : string → value → MemoryDb → MemoryDb * outcome dict :=
  λ _ _ db, (db, Raise "unsupported type").

(** The rows of a table, oldest first. *)
Definition rows_ascending (t : gmap Z conversation_row) : list conversation_row :=
  omap (λ i, t !! i) (ids_ascending t).

(** The last [k] of a list; all of it for a negative [k]. *)
Definition most_recent {A} (k : Z) (l : list A) : list A :=
  if k <? 0 then l else drop (length l - Z.to_nat k) l.

Section StoreVocabulary.

Variable json_dumps : value → string.
Variable json_loads : string → loads_result.
Variable float_text : string → string.

(** The metadata of the row reads back as it was written. *)
Definition reads_back (v : value) : Prop :=
  json_dumps v ≠ "" ∧ json_loads (json_dumps v) = LoadsOk v.

(** A row as [_recall_memory] reports it. *)
Definition reported (row : conversation_row) : value :=
  VDict [ ("timestamp", VStr (timestamp row));
          ("role", sql_read float_text (role row));
          ("content", sql_read float_text (content row));
          ("metadata", metadata row) ].

(** The rows a role filter leaves, oldest first. *)
Definition rows_of_role (role_filter : value) (t : gmap Z conversation_row)
  : list conversation_row :=
  match role_filter with
  | VStr r =>
      if String.eqb r "" then rows_ascending t
      else filter (λ row, role_is float_text r row = true) (rows_ascending t)
  | _ => rows_ascending t
  end.

End StoreVocabulary.

(** ** Vocabulary of the memory properties *)

(** No row has an id beyond the largest id handed out. *)
Definition ids_within (db : MemoryDb) : Prop :=
  ∀ i, i ∈ dom (conversations db) → i ≤ sequence db.

(** A store that holds three turns. *)
Definition three_turns : MemoryDb :=
  (_save_memory 10 "2024-01-01T00:00:03"
     (VDict [("content", VStr "c"); ("metadata", VDict [("k", VInt 1)])])
     (_save_memory 10 "2024-01-01T00:00:02"
        (VDict [("content", VStr "b"); ("role", VStr "assistant")])
        (_save_memory 10 "2024-01-01T00:00:01"
           (VDict [("content", VStr "a")]) Posix.empty_db).1).1).1.

(** ** Reading the configuration file ([core/config.py]) *)

(** [s.split(sep)] for a one-character separator. *)
Fixpoint split_on (sep : ascii) (s : string) : list string :=
  match s with
  | EmptyString => [""]
  | String c s' =>
      match split_on sep s' with
      | x :: xs => if Ascii.eqb c sep then "" :: x :: xs else String c x :: xs
      | [] => [String c ""]
      end
  end.

(** The loop of [Config.get] over the parts of the key: [v] is where the
    walk stands. *)
Fixpoint get_path (keys : list string) (v : value) (fallback : value) : value :=
  match keys with
  | [] => v
  | k :: rest =>
      match v with
      | VDict d =>
          match dict_get k d with
          | Some VNone | None => fallback
          | Some v' => get_path rest v' fallback
          end
      | _ => fallback
      end
  end.

(** [Config.get(key, default)] on the loaded YAML document [config]. *)
Definition Config_get (config : value) (key : string) (fallback : value) : value :=
  get_path (split_on "." key) config fallback.

(** [needle in v] for a string needle; [None] where Python raises
    [TypeError], the right-hand side not being a container. *)
Definition py_in (needle : string) (v : value) : option bool :=
  match v with
  | VDict d => Some (dict_has needle d)
  | VList l =>
      Some (existsb (λ x, match x with
                          | VStr s => String.eqb s needle
                          | _ => false
                          end) l)
  | VStr s => Some (str_contains needle s)
  | _ => None
  end.

(** [Config.is_action_blocked], [Config.requires_confirmation] and
    [Config.is_module_enabled] on the YAML document. *)
Definition Config_is_action_blocked (config : value) (action : string)
  : option bool :=
  py_in action (Config_get config "safety.blocked_actions" (VList [])).

Definition Config_requires_confirmation (config : value) (action : string)
  : option bool :=
  py_in action (Config_get config "safety.require_confirmation_for" (VList [])).

Definition Config_is_module_enabled (config : value) (module_name : string)
  : value :=
  Config_get config ("modules." +:+ module_name +:+ ".enabled") (VBool false).

(** A configuration file with a null entry and a list of blocked actions. *)
Definition sample_yaml : value :=
  VDict [ ("ollama", VDict [("url", VStr "http://localhost:11434"); ("model", VNone)]);
          ("safety", VDict [("blocked_actions",
                             VList [VStr "file_delete"; VStr "system_shutdown"])]) ].

(** ** Vocabulary of the safety properties *)

(** [tighter] differs from [cfg] only by blocking more actions and
    forbidding more directories. *)
Definition tightens (cfg tighter : Config) : Prop :=
  blocked_actions cfg ⊆ blocked_actions tighter
  ∧ forbidden_directories cfg ⊆ forbidden_directories tighter
  ∧ safe_directories tighter = safe_directories cfg
  ∧ max_file_size_mb tighter = max_file_size_mb cfg
  ∧ email_enabled tighter = email_enabled cfg.

(** The last character of [s], or [prev] when [s] is empty. *)
Fixpoint last_of (prev : option ascii) (s : string) : option ascii :=
  match s with
  | EmptyString => prev
  | String c s' => last_of (Some c) s'
  end.

(** A word may begin right after [s]: [s] is empty, or ends with an ASCII
    character that is not a word character. *)
Definition word_may_begin_after (s : string) : bool :=
  match last_of None s with
  | Some c => (Regex.code c <? 128) && negb (Regex.is_word c)
  | None => true
  end.

(** [a] is [b] up to the case of its letters. *)
Fixpoint same_ci (a b : string) : bool :=
  match a, b with
  | EmptyString, EmptyString => true
  | String x a', String y b' => Regex.eq_ci x y && same_ci a' b'
  | _, _ => false
  end.

(** Whether [s] is made of white space only. *)
Fixpoint all_space (s : string) : bool :=
  match s with
  | EmptyString => true
  | String c s' => Regex.is_space c && all_space s'
  end.


Definition email_on : Config :=
  {| blocked_actions := [];
     require_confirmation_for := [];
     forbidden_directories := [];
     safe_directories := [];
     max_file_size_mb := 100;
     email_enabled := true;
     max_history_items := 1000 |}.

(** ** Vocabulary of the router properties *)

(** The action names for which some module has a method, as the
    [action_map] tables of the seven modules list them. *)
Definition registered_actions : list string :=
  [ "file_read"; "file_write"; "file_delete"; "file_move"; "file_copy";
    "file_list"; "file_info";
    "email_send"; "email_draft";
    "image_describe"; "image_ocr"; "image_analyze";
    "voice_transcribe"; "voice_record";
    "api_get"; "api_post";
    "memory_save"; "memory_recall"; "memory_get_context";
    "memory_set_context"; "memory_clear";
    "plan_task"; "plan_validate" ].

(** [results] put before what a later part of the batch returns. *)
Definition after_results (results : list dict) (o : outcome (list dict))
  : outcome (list dict) :=
  match o with
  | Ret later => Ret (results ++ later)%list
  | Raise e => Raise e
  end.

(** * Properties *)

(** ** Strings *)

Lemma str_at_bounds s i c : str_at s i = Some c → 0 ≤ i < str_len s.
Proof.
  unfold str_at, str_len. destruct (Z.ltb_spec i 0) as [|Hi]; [done|].
  intros Hget. split; [done|].
  assert (Z.to_nat i < String.length s)%nat; [|lia].
  clear Hi. revert s Hget. generalize (Z.to_nat i) as n.
  induction n as [|n IH]; intros [|a s]; simpl; try done; [lia|].
  intros Hget. apply IH in Hget. lia.
Qed.

Lemma find_char_spec c s n i :
  find_char c s n i = -1 ∨
  (i ≤ find_char c s n i ∧ str_at s (find_char c s n i) = Some c).
Proof.
  revert i. induction n as [|n IH]; intros i; simpl; [by left|].
  destruct (str_at s i) as [c'|] eqn:Hat; [|by left].
  destruct (Ascii.eqb_spec c' c) as [->|_].
  - right. split; [lia|done].
  - destruct (IH (i + 1)) as [->|[Hle Hfound]]; [by left|].
    right. split; [lia|done].
Qed.

Lemma str_find_spec s c start :
  str_find s c start = -1 ∨
  (start ≤ str_find s c start ∧ str_at s (str_find s c start) = Some c).
Proof. apply find_char_spec. Qed.

(** A non-empty slice begins with the character at its first index. *)
Lemma str_slice_head text a b c :
  str_at text a = Some c → a < b →
  startswith (str_slice text a b) (String c "") = true.
Proof.
  unfold str_at, str_slice, startswith.
  destruct (Z.ltb_spec a 0) as [|Ha]; [done|]. intros Hget Hlt.
  destruct (Z.to_nat (b - a)) as [|m] eqn:Hm; [lia|]. clear Hm Hlt Ha.
  revert text Hget. generalize (Z.to_nat a) as n.
  induction n as [|n IH]; intros [|x text]; simpl; try done.
  - intros [= ->]. destruct (ascii_dec c c); [|done].
    by destruct (substring 0 m text).
  - apply IH.
Qed.

(** ** The JSON decoder *)

Lemma parse_members_dict fuel s acc v r :
  Json.parse_members fuel s acc = Json.POk v r → ∃ d, v = VDict d.
Proof.
  revert s acc. induction fuel as [|fuel IH]; intros s acc; simpl; [done|].
  destruct (Json.after Json.dquote s) as [s'|]; [|done].
  destruct (Json.scan_string _ s') as [[k r0]|]; [|done].
  destruct (Json.after ":" _) as [r1|]; [|done].
  destruct (Json.parse_value fuel _) as [v1 r2| |]; [|done..].
  destruct (Json.after "}" _) as [r3|].
  - intros [= <- _]. by eexists.
  - destruct (Json.after "," _) as [r4|]; [apply IH|done].
Qed.

(** A text that begins with an opening brace decodes to a dict or not at
    all. *)
Lemma loads_object s v :
  startswith s "{" = true → Json.loads s = LoadsOk v → ∃ d, v = VDict d.
Proof.
  unfold startswith. destruct s as [|c s]; [done|]. cbn [String.prefix].
  destruct (ascii_dec "{" c) as [<-|]; [|done]. intros _.
  unfold Json.loads.
  change (Json.skip_ws (String "{" s)) with (String "{" s).
  cbn [Json.parse_value].
  change (Ascii.eqb "{" Json.dquote) with false.
  change (Ascii.eqb "{" "{") with true. cbv iota.
  destruct (Json.after "}" (Json.skip_ws s)) as [r|].
  - destruct (String.eqb _ ""); [|done]. intros [= <-]. by eexists.
  - destruct (Json.parse_members _ _ _) as [v' r| |] eqn:Hmembers; [|done..].
    destruct (String.eqb _ ""); [|done]. intros [= <-].
    by eapply parse_members_dict.
Qed.

(** ** The extractor *)

(** Once a brace is open, the scan reports depth zero only where it left
    through [break], past the closing brace. *)
Lemma scan_braces_closed text n i brace_count end_idx :
  1 ≤ brace_count →
  (scan_braces text n i brace_count end_idx).1 = 0 →
  i < (scan_braces text n i brace_count end_idx).2.
Proof.
  revert i brace_count. induction n as [|n IH]; intros i bc Hbc; simpl.
  { lia. }
  destruct (str_at text i) as [c|]; simpl; [|lia].
  destruct (Ascii.eqb c "{").
  { intros Hz. apply IH in Hz; lia. }
  destruct (Ascii.eqb c "}").
  - destruct (Z.eqb_spec (bc - 1) 0) as [|Hne]; simpl; [lia|].
    intros Hz. apply IH in Hz; lia.
  - intros Hz. apply IH in Hz; lia.
Qed.

Lemma scan_braces_progress text start :
  str_at text start = Some "{"%char →
  let r := scan_braces text (Z.to_nat (str_len text - start)) start 0 start in
  r.1 = 0 → start < r.2.
Proof.
  intros Hat. pose proof (str_at_bounds _ _ _ Hat) as Hb.
  destruct (Z.to_nat (str_len text - start)) as [|n] eqn:Hn; [lia|].
  simpl. rewrite Hat. simpl. intros Hz.
  apply scan_braces_closed in Hz; lia.
Qed.

Section ExtractorFacts.

Variable json_loads : string → loads_result.
Variable P : value → Prop.
Hypothesis P_action : ∀ s v,
  startswith s "{" = true →
  json_loads s = LoadsOk v → contains_action v = Ret true → P v.

(** The loop returns whenever its fuel covers the characters left, and
    it only ever appends values that passed the ['action' in] test. *)
Lemma extract_loop_fuel text fuel start_idx tool_calls :
  Forall P tool_calls →
  start_idx = -1 ∨
    (str_at text start_idx = Some "{"%char ∧
     str_len text - start_idx ≤ Z.of_nat fuel) →
  ∃ calls, extract_loop json_loads fuel text start_idx tool_calls = Some calls
           ∧ Forall P calls.
Proof.
  revert start_idx tool_calls.
  induction fuel as [|fuel IH]; intros start acc Hacc Hstart.
  - destruct Hstart as [->|[Hat Hlen]]; [by exists acc|].
    apply str_at_bounds in Hat. lia.
  - destruct Hstart as [->|[Hat Hlen]]; [by exists acc|].
    pose proof (str_at_bounds _ _ _ Hat) as Hb.
    pose proof (scan_braces_progress _ _ Hat) as Hprog.
    simpl in Hprog |- *.
    destruct (Z.eqb_spec start (-1)) as [|_]; [lia|].
    destruct (scan_braces text (Z.to_nat (str_len text - start)) start 0 start)
      as [brace_count end_idx]; simpl in Hprog.
    destruct (Z.eqb_spec brace_count 0) as [Hz|_]; [|by exists acc].
    specialize (Hprog Hz).
    assert (Hnext : str_find text "{" end_idx = -1 ∨
              (str_at text (str_find text "{" end_idx) = Some "{"%char ∧
               str_len text - str_find text "{" end_idx ≤ Z.of_nat fuel)).
    { destruct (str_find_spec text "{" end_idx) as [->|[Hle Hf]]; [by left|].
      right. split; [done|lia]. }
    destruct (json_loads (str_slice text start end_idx)) as [tool_call| |]
      eqn:Hloads.
    + destruct (contains_action tool_call) as [[|]|e] eqn:Hin.
      * apply IH; [|done]. apply Forall_app. split; [done|].
        constructor; [|constructor].
        apply (P_action (str_slice text start end_idx)); [|done..].
        by apply (str_slice_head text start end_idx).
      * by apply IH.
      * by exists acc.
    + by apply IH.
    + by exists acc.
Qed.

End ExtractorFacts.

(** C4 (as amended): for every input text and every behaviour of the JSON
    decoder, [extract_tool_calls] returns a list, within one loop
    iteration per character and with no exception escaping, and every
    object in that list passed the test ['action' in tool_call]; with
    [json.loads] as the decoder every object returned is a dict that has
    an "action" key. *)
Theorem extract_tool_calls_returns json_loads text :
  (∃ calls, extract_tool_calls json_loads text = Some calls
            ∧ Forall (λ v, contains_action v = Ret true) calls)
  ∧ (∃ calls, extract_tool_calls Json.loads text = Some calls
              ∧ Forall (λ v, ∃ d, v = VDict d ∧ is_Some (dict_get "action" d))
                       calls).
Proof.
  assert (Hstart : str_find text "{" 0 = -1 ∨
            (str_at text (str_find text "{" 0) = Some "{"%char ∧
             str_len text - str_find text "{" 0 ≤ Z.of_nat (String.length text))).
  { destruct (str_find_spec text "{" 0) as [->|[Hle Hat]]; [by left|].
    right. split; [done|].
    apply str_at_bounds in Hat. unfold str_len in *. lia. }
  split; unfold extract_tool_calls.
  - apply extract_loop_fuel; [done|constructor|done].
  - apply extract_loop_fuel; [|constructor|done].
    intros s v Hbrace Hloads Haction.
    destruct (loads_object s v Hbrace Hloads) as [d ->].
    exists d. split; [done|]. simpl in Haction. unfold dict_has in Haction.
    by destruct (dict_get "action" d).
Qed.

(** C4 (as stated) fails: the text [{"action": null}] yields an object
    whose "action" is [None]. *)
Lemma extract_tool_calls_null_action :
  extract_tool_calls Json.loads (Json.dq "{'action': null}")
    = Some [VDict [("action", VNone)]]
  ∧ ¬ Forall (λ v, action_non_null v = true) [VDict [("action", VNone)]].
Proof.
  split; [by vm_compute|].
  intros Hall. apply Forall_inv in Hall. by vm_compute in Hall.
Qed.

(** C3: the text [{"action":"x","params":{"note":"a { b"}}] is one
    well-formed tool call, as [json.loads] reads it, yet the brace inside
    its string literal is counted by the depth scan, which reaches the end
    of the text at depth one, so the extractor returns no request at all,
    whatever the decoder. *)
Theorem extract_tool_calls_brace_in_literal :
  Json.loads brace_in_literal
    = LoadsOk (VDict [("action", VStr "x");
                      ("params", VDict [("note", VStr "a { b")])])
  ∧ scan_braces brace_in_literal (String.length brace_in_literal) 0 0 0 = (1, 0)
  ∧ ∀ json_loads, extract_tool_calls json_loads brace_in_literal = Some [].
Proof. split; [by vm_compute|]. split; [by vm_compute|]. intros. by vm_compute. Qed.

(** ** The policy engine *)

(** [relative_to] succeeds exactly on descendants-or-self: the
    components of [other] are a prefix of those of [p]. *)
Lemma relative_to_prefix p other :
  relative_to p other = true ↔ other `prefix_of` p.
Proof.
  revert p. induction other as [|o other IH]; intros p; simpl.
  - split; [intros _; apply prefix_nil|by destruct p].
  - destruct p as [|c p].
    + split; [done|]. intros Hpre. by apply prefix_nil_inv in Hpre.
    + simpl. rewrite andb_true_iff, IH. split.
      * intros [Heq Hpre]. apply String.eqb_eq in Heq as ->.
        by apply prefix_cons.
      * intros Hpre. pose proof (prefix_cons_inv_1 _ _ _ _ Hpre) as ->.
        apply prefix_cons_inv_2 in Hpre. split; [apply String.eqb_refl|done].
Qed.

Section SafetyFacts.

Context {W : Type} `{Platform W}.
Variable cfg : Config.

Lemma forbidden_loop_Some w p dirs :
  (∃ forbidden, forbidden ∈ dirs ∧ resolve w forbidden `prefix_of` p) →
  ∃ forbidden, forbidden_loop w p dirs = Some forbidden.
Proof.
  induction dirs as [|f dirs IH]; intros (forbidden & Hin & Hpre); simpl.
  { by apply elem_of_nil in Hin. }
  destruct (relative_to p (resolve w f)) eqn:Hrel; [by exists f|].
  apply IH. exists forbidden. split; [|done].
  apply elem_of_cons in Hin as [->|Hin]; [|done].
  apply relative_to_prefix in Hpre. congruence.
Qed.

Lemma forbidden_loop_None w p dirs :
  (∀ forbidden, forbidden ∈ dirs → ¬ resolve w forbidden `prefix_of` p) →
  forbidden_loop w p dirs = None.
Proof.
  induction dirs as [|f dirs IH]; intros Hout; simpl; [done|].
  destruct (relative_to p (resolve w f)) eqn:Hrel.
  - apply relative_to_prefix in Hrel. destruct (Hout f); [left|done].
  - apply IH. intros forbidden Hin. apply Hout. by right.
Qed.

Lemma safe_loop_true w p dirs :
  safe_loop w p dirs = true →
  ∃ safe_dir, safe_dir ∈ dirs ∧ safe_path w safe_dir `prefix_of` p.
Proof.
  induction dirs as [|d dirs IH]; simpl; [done|].
  destruct (relative_to p (safe_path w d)) eqn:Hrel.
  - intros _. exists d. split; [left|by apply relative_to_prefix].
  - intros Hsafe. destruct (IH Hsafe) as (d' & Hin & Hpre).
    exists d'. split; [by right|done].
Qed.

(** What the file check answers when the forbidden loop finds nothing. *)
Lemma _validate_file_action_not_forbidden w action d s forbidden :
  dict_get "path" d = Some (VStr s) →
  forbidden_loop w (resolve w s) (forbidden_directories cfg) = None →
  _validate_file_action cfg w action (VDict d)
    ≠ Ret (false, "Access to '" +:+ forbidden +:+ "' directory is forbidden").
Proof.
  intros Hpath Hloop. unfold _validate_file_action. simpl. rewrite Hpath.
  simpl. destruct (negb (negb (String.eqb s ""))); [done|].
  rewrite Hloop.
  repeat match goal with
         | |- context [if ?b then _ else _] => destruct b
         end; cbv beta iota fix delta [String.append]; congruence.
Qed.

End SafetyFacts.

(** C6: for a file-prefixed action whose "path" is the string [s],
    (1) if the resolved path has the resolved form of some configured
    forbidden directory as a prefix of its components (it is that directory
    or lies below it), validation denies the action; (2) if it has none of
    them as such a prefix, whatever characters the two path strings share,
    the forbidden-directory loop finds nothing and the verdict is never the
    forbidden-directory denial. *)
Theorem forbidden_directory_containment {W : Type} `{Platform W}
    (cfg : Config) (w : W) (action : string) (d : dict) (s : string) :
  startswith action "file_" = true →
  dict_get "path" d = Some (VStr s) →
  ((∃ forbidden, forbidden ∈ forbidden_directories cfg
                 ∧ resolve w forbidden `prefix_of` resolve w s) →
   ∃ reason, validate_action cfg w action (VDict d) = Ret (false, reason))
  ∧
  ((∀ forbidden, forbidden ∈ forbidden_directories cfg
                 → ¬ resolve w forbidden `prefix_of` resolve w s) →
   forbidden_loop w (resolve w s) (forbidden_directories cfg) = None
   ∧ ∀ forbidden,
       validate_action cfg w action (VDict d)
         ≠ Ret (false, "Access to '" +:+ forbidden +:+ "' directory is forbidden")).
Proof.
  intros Hfile Hpath. unfold validate_action. rewrite Hfile. split.
  - intros Hin. destruct (is_action_blocked cfg action); [by eexists|].
    unfold _validate_file_action. simpl. rewrite Hpath. simpl.
    destruct (negb (negb (String.eqb s ""))); [by eexists|].
    destruct (forbidden_loop_Some w _ _ Hin) as [f ->]. by eexists.
  - intros Hout. pose proof (forbidden_loop_None w _ _ Hout) as Hloop.
    split; [done|]. intros forbidden.
    destruct (is_action_blocked cfg action).
    { cbv beta iota fix delta [String.append]. congruence. }
    by apply (_validate_file_action_not_forbidden cfg w action d s).
Qed.

(** C7: for a file-prefixed action whose "path" is the string [s], with a
    non-empty list of safe directories configured, validation allows the
    action only if the resolved path is, or lies below, the resolved form
    of one of them; the validator resolves a safe directory under the
    user's home, as [Path(expanduser("~/" + safe_dir)).resolve()]. *)
Theorem safe_directory_allow_list {W : Type} `{Platform W}
    (cfg : Config) (w : W) (action : string) (d : dict) (s reason : string) :
  startswith action "file_" = true →
  dict_get "path" d = Some (VStr s) →
  safe_directories cfg ≠ [] →
  validate_action cfg w action (VDict d) = Ret (true, reason) →
  ∃ safe_dir, safe_dir ∈ safe_directories cfg
              ∧ safe_path w safe_dir `prefix_of` resolve w s.
Proof.
  intros Hfile Hpath Hsafe. unfold validate_action. rewrite Hfile.
  destruct (is_action_blocked cfg action); [done|].
  unfold _validate_file_action. simpl. rewrite Hpath. simpl.
  destruct (negb (negb (String.eqb s ""))); [done|].
  destruct (forbidden_loop w (resolve w s) (forbidden_directories cfg)); [done|].
  destruct (safe_directories cfg) as [|d0 dirs] eqn:Hdirs; [done|].
  destruct (safe_loop w (resolve w s) (d0 :: dirs)) eqn:Hloop.
  - intros _. by apply safe_loop_true.
  - done.
Qed.

(** With [/home/user] forbidden, [/home/user/secret.txt] is denied, while
    [/home/userx/file.txt], which begins with the same characters, is
    neither matched by the forbidden loop nor denied. *)
Lemma forbidden_directory_containment_witness :
  (∃ reason,
     validate_action home_user_forbidden O "file_read"
       (VDict [("path", VStr "/home/user/secret.txt")]) = Ret (false, reason))
  ∧ String.prefix "/home/user" "/home/userx/file.txt" = true
  ∧ forbidden_loop O (resolve O "/home/userx/file.txt") ["/home/user"] = None
  ∧ validate_action home_user_forbidden O "file_read"
      (VDict [("path", VStr "/home/userx/file.txt")])
    ≠ Ret (false, "Access to '/home/user' directory is forbidden").
Proof.
  split.
  - apply (forbidden_directory_containment home_user_forbidden O "file_read"
             [("path", VStr "/home/user/secret.txt")] "/home/user/secret.txt");
      [reflexivity|reflexivity|].
    exists "/home/user". split; [left|]. by exists ["secret.txt"].
  - split; [reflexivity|].
    destruct (forbidden_directory_containment home_user_forbidden O "file_read"
                [("path", VStr "/home/userx/file.txt")] "/home/userx/file.txt")
      as [_ Hnot]; [reflexivity|reflexivity|].
    destruct Hnot as [Hloop Hverdict].
    + intros forbidden Hin [k Hk].
      apply list_elem_of_singleton in Hin. subst forbidden.
      vm_compute in Hk. discriminate Hk.
    + split; [exact Hloop|exact (Hverdict "/home/user")].
Defined.

(** With [Documents] as the only safe directory and [/home/user] as home,
    [file_info] on [/home/user/Documents/a.txt] is allowed, and the path
    lies below the resolved safe directory. *)
Lemma safe_directory_allow_list_witness :
  validate_action documents_only O "file_info"
    (VDict [("path", VStr "/home/user/Documents/a.txt")])
    = Ret (true, "File action is safe")
  ∧ ∃ safe_dir, safe_dir ∈ ["Documents"]
                ∧ safe_path O safe_dir
                    `prefix_of` resolve O "/home/user/Documents/a.txt".
Proof.
  split; [reflexivity|].
  apply (safe_directory_allow_list documents_only O "file_info"
           [("path", VStr "/home/user/Documents/a.txt")]
           "/home/user/Documents/a.txt" "File action is safe");
    [reflexivity|reflexivity|discriminate|reflexivity].
Defined.

(** ** The memory store *)

Lemma foldr_max_ge (l : list Z) x : x ∈ l → x ≤ foldr Z.max 0 l.
Proof.
  induction l as [|y l IH]; intros Hin; [by apply elem_of_nil in Hin|].
  simpl. apply elem_of_cons in Hin as [->|Hin]; [lia|].
  specialize (IH Hin). lia.
Qed.

(** AUTOINCREMENT never reuses the id of a row in the table. *)
Lemma next_id_fresh db : conversations db !! next_id db = None.
Proof.
  destruct (conversations db !! next_id db) as [row|] eqn:Hrow; [|done].
  assert (Hin : next_id db ∈ elements (dom (conversations db))).
  { apply elem_of_elements, elem_of_dom. by exists row. }
  apply foldr_max_ge in Hin. unfold next_id in Hin at 1. lia.
Qed.

Section Eviction.

Variable t : gmap Z conversation_row.

Lemma ids_ascending_elem i : i ∈ ids_ascending t ↔ i ∈ dom t.
Proof.
  unfold ids_ascending. rewrite merge_sort_Permutation.
  apply elem_of_elements.
Qed.

Lemma ids_ascending_NoDup : NoDup (ids_ascending t).
Proof.
  unfold ids_ascending. rewrite merge_sort_Permutation.
  apply NoDup_elements.
Qed.

Lemma ids_ascending_length : length (ids_ascending t) = size t.
Proof.
  unfold ids_ascending. rewrite merge_sort_Permutation.
  by rewrite <- size_dom.
Qed.

Lemma ids_ascending_sorted : StronglySorted Z.le (ids_ascending t).
Proof. apply (StronglySorted_merge_sort Z.le). Qed.

Lemma lookup_delete_ids ids j :
  delete_ids ids t !! j = if decide (j ∈ ids) then None else t !! j.
Proof.
  unfold delete_ids. destruct (decide (j ∈ ids)) as [Hin|Hout].
  - apply map_lookup_filter_None. right. intros row _. simpl. tauto.
  - destruct (t !! j) as [row|] eqn:Hrow.
    + by apply map_lookup_filter_Some.
    + apply map_lookup_filter_None. by left.
Qed.

Lemma dom_delete_ids ids :
  dom (delete_ids ids t) = dom t ∖ list_to_set ids.
Proof.
  apply set_eq. intros j.
  rewrite elem_of_difference, elem_of_list_to_set, !elem_of_dom,
    lookup_delete_ids.
  destruct (decide (j ∈ ids)); split.
  - by intros [? ?].
  - by intros [_ ?].
  - done.
  - by intros [? _].
Qed.

(** Deleting the [k] oldest ids removes exactly [k] rows. *)
Lemma size_delete_oldest (k : nat) :
  (k ≤ size t)%nat →
  size (delete_ids (take k (ids_ascending t)) t) = (size t - k)%nat.
Proof.
  intros Hk. rewrite <- (size_dom (delete_ids _ _)), dom_delete_ids.
  rewrite size_difference.
  - rewrite size_dom, size_list_to_set.
    + rewrite length_take, ids_ascending_length. lia.
    + pose proof ids_ascending_NoDup as Hnd.
      rewrite <- (take_drop k (ids_ascending t)) in Hnd.
      by apply NoDup_app in Hnd as [? _].
  - intros j Hj. apply elem_of_list_to_set in Hj.
    apply ids_ascending_elem.
    rewrite <- (take_drop k (ids_ascending t)). apply elem_of_app. by left.
Qed.

(** Every deleted id is smaller than every id that stays. *)
Lemma oldest_before_kept (k : nat) i j :
  i ∈ dom t →
  i ∉ dom (delete_ids (take k (ids_ascending t)) t) →
  j ∈ dom (delete_ids (take k (ids_ascending t)) t) →
  i < j.
Proof.
  rewrite dom_delete_ids, !elem_of_difference, !elem_of_list_to_set.
  intros Hi Hgone [Hj Hkept].
  assert (Hi' : i ∈ take k (ids_ascending t)).
  { destruct (decide (i ∈ take k (ids_ascending t))); [done|].
    destruct Hgone. by split. }
  assert (Hj' : j ∈ drop k (ids_ascending t)).
  { apply ids_ascending_elem in Hj.
    rewrite <- (take_drop k (ids_ascending t)) in Hj.
    apply elem_of_app in Hj as [|]; done. }
  pose proof ids_ascending_sorted as Hsorted.
  rewrite <- (take_drop k (ids_ascending t)) in Hsorted.
  pose proof (StronglySorted_app_1_elem_of _ _ _ _ _ Hsorted Hi' Hj').
  assert (i ≠ j) by (intros ->; done).
  lia.
Qed.

End Eviction.

(** What the retention clean-up does to a table, for a non-negative
    limit. *)
Lemma evict_oldest_spec max_history db :
  0 ≤ max_history →
  let t := conversations db in
  let t' := conversations (evict_oldest max_history db) in
  row_count t' ≤ max_history
  ∧ (row_count t ≤ max_history → t' = t)
  ∧ (max_history < row_count t →
     row_count t' = max_history
     ∧ t' ⊆ t
     ∧ ∀ i j, i ∈ dom t → i ∉ dom t' → j ∈ dom t' → i < j).
Proof.
  intros Hmax. unfold evict_oldest, row_count. simpl.
  destruct (Z.ltb_spec max_history (Z.of_nat (size (conversations db))))
    as [Hover|Hfits]; simpl.
  - set (k := Z.to_nat (Z.of_nat (size (conversations db)) - max_history)).
    assert (Hk : (k ≤ size (conversations db))%nat) by lia.
    unfold oldest_ids. fold k.
    pose proof (size_delete_oldest (conversations db) k Hk) as Hsize.
    split; [lia|]. split; [lia|]. intros _.
    split; [lia|]. split; [apply map_filter_subseteq|].
    apply oldest_before_kept.
  - split; [lia|]. split; [done|lia].
Qed.

(** A request that stores a turn inserts one row under a fresh id, then
    runs the clean-up, and reports success. *)
Lemma _save_memory_stores max_history timestamp params db :
  stores_turn params = true →
  ∃ row,
    _save_memory max_history timestamp params db
    = (evict_oldest max_history
         {| conversations := <[next_id db := row]> (conversations db);
            sequence := next_id db;
            context := context db |},
       Ret [("success", VBool true); ("message", VStr "Memory saved")]).
Proof.
  destruct params as [| | | | |?|d]; try done.
  unfold stores_turn, _save_memory, insert_conversation. simpl.
  intros [[Htruthy [Hrole Hcontent]%andb_true_iff]%andb_true_iff
            [Hnrole Hncontent]%negb_true_iff%orb_false_iff]%andb_true_iff.
  rewrite Htruthy. simpl. rewrite Hrole, Hcontent, Hnrole, Hncontent. simpl.
  by eexists.
Qed.

(** Any other request leaves the database as it was. *)
Lemma _save_memory_no_store max_history timestamp params db :
  stores_turn params = false →
  (_save_memory max_history timestamp params db).1 = db.
Proof.
  destruct params as [| | | | |?|d]; try done.
  unfold stores_turn, _save_memory, insert_conversation. simpl.
  destruct (truthy _); simpl; [|done].
  destruct (bindable (default (VStr "user") _)); simpl; [|done].
  destruct (bindable (default (VStr "") _)); simpl; [|done].
  intros [->| ->]%negb_false_iff%orb_true_iff; [done|].
  by destruct (stored_as_null _).
Qed.

(** C5: with a non-negative configured maximum, whatever the database
    held before, (1) after each of a series of [memory_save] calls that
    store a turn (non-empty content) the conversation table holds
    at most the maximum number of rows; and (2) each such call inserts one
    row under a fresh id, leaves the table as inserted when the count does
    not exceed the maximum, and otherwise leaves exactly the maximum
    number of rows, all of them rows of the table as inserted, every
    deleted id being smaller than every id that stays. *)
Theorem retention_is_bounded_fifo_exact
    (max_history : Z) (turns : list (string * value)) (db : MemoryDb) :
  0 ≤ max_history →
  Forall (λ turn, stores_turn turn.2 = true) turns →
  Forall (λ db', row_count (conversations db') ≤ max_history)
         (save_all max_history turns db)
  ∧ ∀ timestamp params db0,
      stores_turn params = true →
      ∃ row,
        let inserted := <[next_id db0 := row]> (conversations db0) in
        let after :=
          conversations (_save_memory max_history timestamp params db0).1 in
        conversations db0 !! next_id db0 = None
        ∧ row_count inserted = row_count (conversations db0) + 1
        ∧ (row_count inserted ≤ max_history → after = inserted)
        ∧ (max_history < row_count inserted →
           row_count after = max_history
           ∧ after ⊆ inserted
           ∧ ∀ i j, i ∈ dom inserted → i ∉ dom after → j ∈ dom after → i < j).
Proof.
  intros Hmax Hturns. split.
  - revert db. induction Hturns as [|[timestamp params] turns Hturn _ IH];
      intros db; simpl; [constructor|].
    constructor; [|apply IH].
    destruct (_save_memory_stores max_history timestamp params db Hturn)
      as [row ->]. simpl.
    apply (evict_oldest_spec max_history _ Hmax).
  - intros timestamp params db0 Hturn.
    destruct (_save_memory_stores max_history timestamp params db0 Hturn)
      as [row ->]. exists row. simpl.
    pose proof (next_id_fresh db0) as Hfresh.
    split; [done|]. split.
    { unfold row_count. rewrite map_size_insert_None; [lia|done]. }
    pose proof (evict_oldest_spec max_history
      {| conversations := <[next_id db0 := row]> (conversations db0);
         sequence := next_id db0; context := context db0 |} Hmax) as Hspec.
    simpl in Hspec. destruct Hspec as (_ & Hfits & Hover). by split.
Qed.

(** Five turns into an empty store that keeps three: the counts after
    each call are 1, 2, 3, 3, 3 and ids 3, 4, 5 remain at the end. *)
Lemma retention_is_bounded_fifo_exact_witness :
  let turns := (λ c, ("2024-01-01T00:00:00", VDict [("content", VStr c)]))
                 <$> ["a"; "b"; "c"; "d"; "e"] in
  Forall (λ db', row_count (conversations db') ≤ 3)
         (save_all 3 turns Posix.empty_db)
  ∧ (λ db', row_count (conversations db')) <$> save_all 3 turns Posix.empty_db
    = [1; 2; 3; 3; 3]
  ∧ (ids_ascending ∘ conversations) <$> last (save_all 3 turns Posix.empty_db)
    = Some [3; 4; 5].
Proof.
  intros turns. split; [|split; reflexivity].
  apply (retention_is_bounded_fifo_exact 3 turns Posix.empty_db); [lia|].
  repeat constructor.
Defined.

(** C10: when "content" is missing from the [params] of [memory_save], or
    is the empty string, [_save_memory] returns
    [{"success": False, "error": "Content is required"}] and the database,
    both tables and the id sequence, is exactly as before; the same holds
    through [MemoryModule.execute]. *)
Theorem save_memory_requires_content {W : Type} `{Platform W}
    (cfg : Config) (w : W) (max_history : Z) (timestamp : string)
    (d : dict) (db : MemoryDb) :
  dict_get "content" d = None ∨ dict_get "content" d = Some (VStr "") →
  _save_memory max_history timestamp (VDict d) db
    = (db, Ret [("success", VBool false); ("error", VStr "Content is required")])
  ∧ MemoryModule_execute cfg "memory_save" (VDict d) w db
    = (db, [("success", VBool false); ("error", VStr "Content is required")]).
Proof.
  intros Hcontent. unfold MemoryModule_execute. simpl.
  assert (Hsave : _save_memory max_history timestamp (VDict d) db
    = (db, Ret [("success", VBool false); ("error", VStr "Content is required")])).
  { unfold _save_memory. simpl. by destruct Hcontent as [-> | ->]. }
  split; [done|].
  unfold _save_memory in *. simpl in *. by destruct Hcontent as [-> | ->].
Qed.

(** C10 at work: on a store that holds one turn, a save without content
    and a save with empty content both fail and leave the store as it
    was. *)
Lemma save_memory_requires_content_witness :
  let db := (_save_memory 3 "2024-01-01T00:00:00"
               (VDict [("content", VStr "hello")]) Posix.empty_db).1 in
  row_count (conversations db) = 1
  ∧ _save_memory 3 "2024-01-01T00:00:01" (VDict [("role", VStr "user")]) db
    = (db, Ret [("success", VBool false); ("error", VStr "Content is required")])
  ∧ MemoryModule_execute default_config "memory_save"
      (VDict [("content", VStr "")]) O db
    = (db, [("success", VBool false); ("error", VStr "Content is required")]).
Proof.
  intros db. split; [reflexivity|]. split.
  - apply (save_memory_requires_content default_config O 3
             "2024-01-01T00:00:01" [("role", VStr "user")] db).
    left. reflexivity.
  - apply (save_memory_requires_content default_config O 1000
             "2024-01-01T00:00:00" [("content", VStr "")] db).
    right. reflexivity.
Defined.

(** A negative limit is outside the retention rule: the clean-up then
    empties the table, and zero rows are still more than the limit. *)
Remark retention_negative_limit :
  row_count (conversations
    (_save_memory (-1) "2024-01-01T00:00:00"
       (VDict [("content", VStr "hello")]) Posix.empty_db).1) = 0.
Proof. reflexivity. Qed.

(** ** Dictionaries *)

Lemma dict_get_set_eq k v d : dict_get k (dict_set k v d) = Some v.
Proof.
  induction d as [|[k' v'] d IH]; simpl.
  - by rewrite String.eqb_refl.
  - destruct (String.eqb k k') eqn:Hk; simpl; by rewrite Hk.
Qed.

Lemma dict_get_set_ne k k' v d :
  k ≠ k' → dict_get k (dict_set k' v d) = dict_get k d.
Proof.
  intros Hne. induction d as [|[k0 v0] d IH]; simpl.
  - by apply String.eqb_neq in Hne as ->.
  - destruct (String.eqb_spec k' k0) as [->|Hk0]; simpl.
    + by apply String.eqb_neq in Hne as ->.
    + by rewrite IH.
Qed.

(** The two stamps [route] puts on a handler's dict. *)
Lemma stamped action module_name result :
  let r := dict_set "action" (VStr action)
             (dict_set "module" (VStr module_name) result) in
  dict_get "module" r = Some (VStr module_name)
  ∧ dict_get "action" r = Some (VStr action).
Proof.
  simpl. split.
  - rewrite dict_get_set_ne by done. apply dict_get_set_eq.
  - apply dict_get_set_eq.
Qed.

(** ** The router *)

Section RouterFacts.

Context {W : Type} `{Platform W}.
Variable cfg : Config.

(** Every name in [action_map] has its module in [modules]. *)
Lemma modules_get_registered action module_name :
  find_module action action_map = Some module_name →
  ∃ module, modules_get module_name (modules cfg) = Some module.
Proof.
  unfold find_module, action_map.
  repeat match goal with
         | |- context [startswith action ?p] => destruct (startswith action p)
         end;
    intros [= <-]; by eexists.
Qed.

(** [route] on a registered prefix: the handler's dict with both stamps,
    or the failure dict built from the handler's exception. *)
Lemma route_registered action params st module_name module :
  find_module action action_map = Some module_name →
  modules_get module_name (modules cfg) = Some module →
  route cfg action params st
  = ((module action params st).1,
     match (module action params st).2 with
     | Ret result =>
         dict_set "action" (VStr action)
           (dict_set "module" (VStr module_name) result)
     | Raise e =>
         [ ("success", VBool false);
           ("error", VStr ("Module execution failed: " +:+ e));
           ("module", VStr module_name);
           ("action", VStr action) ]
     end).
Proof.
  intros Hfind Hget. unfold route. rewrite Hfind, Hget.
  by destruct (module action params st) as [st' [result|e]].
Qed.

End RouterFacts.

(** C8 (as amended): whenever the action starts with one of the router's
    prefixes, the result of [route], built from the handler's dict or from
    its exception, has "module" set to the owning module's name and
    "action" set to the action given; for any other action the result is
    the unknown-action failure, which names no module. *)
Theorem route_stamps_module_and_action {W : Type} `{Platform W}
    (cfg : Config) (action : string) (params : value) (st : State W) :
  match find_module action action_map with
  | Some module_name =>
      dict_get "module" (route cfg action params st).2 = Some (VStr module_name)
      ∧ dict_get "action" (route cfg action params st).2 = Some (VStr action)
  | None =>
      route cfg action params st
      = (st, [ ("success", VBool false);
               ("error", VStr ("Unknown action: " +:+ action));
               ("suggestion", VStr "Available action types: file_*, email_*, image_*, voice_*, api_*, memory_*, plan_*") ])
  end.
Proof.
  destruct (find_module action action_map) as [module_name|] eqn:Hfind.
  - destruct (modules_get_registered cfg _ _ Hfind) as [module Hget].
    rewrite (route_registered cfg _ params st _ _ Hfind Hget). simpl.
    destruct ((module action params st).2) as [result|e].
    + apply stamped.
    + done.
  - unfold route. by rewrite Hfind.
Qed.

(** C8 (as stated) fails: the result for an action with no registered
    prefix has neither a "module" nor an "action" entry. *)
Lemma route_unknown_action_unstamped :
  let result := (route default_config "unknown_prefix_x" (VDict []) Posix.start).2 in
  dict_get "success" result = Some (VBool false)
  ∧ dict_get "module" result = None
  ∧ dict_get "action" result = None.
Proof. by vm_compute. Qed.

Lemma startswith_email_not_file action :
  startswith action "email_" = true → startswith action "file_" = false.
Proof.
  unfold startswith. destruct action as [|c action]; [done|].
  cbn [String.prefix].
  destruct (ascii_dec "e" c) as [<-|Hne]; [|done].
  intros _. by destruct (ascii_dec "f" "e").
Qed.

Section GuardedRoutes.

Context {W : Type} `{Platform W}.
Variable cfg : Config.

(** [route] on a file action is the file module's [execute], stamped. *)
Lemma route_file action :
  startswith action "file_" = true →
  find_module action action_map = Some "file"
  ∧ modules_get "file" (modules cfg)
    = Some (on_world (FileActionsModule_execute cfg)).
Proof. intros Hfile. simpl. by rewrite Hfile. Qed.

(** [route] on an email action is the email module's [execute],
    stamped. *)
Lemma route_email action :
  startswith action "email_" = true →
  find_module action action_map = Some "email"
  ∧ modules_get "email" (modules cfg)
    = Some (on_world (EmailModule_execute cfg)).
Proof.
  intros Hemail. simpl.
  by rewrite (startswith_email_not_file _ Hemail), Hemail.
Qed.

End GuardedRoutes.

(** C1 (as amended): validation runs inside the file and email handlers.
    When it denies a file-prefixed action, [route] returns, with the state
    untouched (no handler method has run), the dict with success false,
    the denial reason as error, the safer alternative as suggestion, and
    the module and action stamps; when it denies an email-prefixed action,
    [route] returns, with the state untouched, a dict with success false
    and the denial reason as error. *)
Theorem route_denied_by_validation {W : Type} `{Platform W}
    (cfg : Config) (action : string) (params : value) (st : State W)
    (reason : string) :
  validate_action cfg (world st) action params = Ret (false, reason) →
  (startswith action "file_" = true →
   route cfg action params st
   = (st, [ ("success", VBool false);
            ("error", VStr reason);
            ("suggestion", VStr (get_safe_alternative action reason));
            ("module", VStr "file");
            ("action", VStr action) ]))
  ∧ (startswith action "email_" = true →
     (route cfg action params st).1 = st
     ∧ dict_get "success" (route cfg action params st).2 = Some (VBool false)
     ∧ dict_get "error" (route cfg action params st).2 = Some (VStr reason)).
Proof.
  intros Hdenied. split.
  - intros Hfile. destruct (route_file cfg action Hfile) as [Hfind Hget].
    rewrite (route_registered cfg _ params st _ _ Hfind Hget).
    unfold on_world, FileActionsModule_execute. rewrite Hdenied. simpl.
    by destruct st.
  - intros Hemail.
    destruct (route_email cfg action Hemail) as [Hfind Hget].
    rewrite (route_registered cfg _ params st _ _ Hfind Hget).
    unfold on_world, EmailModule_execute. rewrite Hdenied. simpl.
    by destruct st.
Qed.

(** Deleting a file under the forbidden [/home/user] is denied with the
    reason and the suggestion, and no handler method has been counted. *)
Lemma route_denied_by_validation_witness :
  route home_user_forbidden "file_delete"
    (VDict [("path", VStr "/home/user/secret.txt")]) Posix.start
  = (Posix.start,
     [ ("success", VBool false);
       ("error", VStr "Access to '/home/user' directory is forbidden");
       ("suggestion", VStr "Instead of deleting, consider moving the file to a safe location or creating a backup first.");
       ("module", VStr "file");
       ("action", VStr "file_delete") ]).
Proof.
  apply (route_denied_by_validation home_user_forbidden "file_delete"
           (VDict [("path", VStr "/home/user/secret.txt")]) Posix.start
           "Access to '/home/user' directory is forbidden");
    reflexivity.
Defined.

(** C1 (as stated) fails: with [memory_save] on the block-list, validation
    denies it, yet [route] never consults the validator for a memory
    action: the call succeeds and the turn is stored. *)
Lemma route_runs_blocked_memory_save :
  let params := VDict [("content", VStr "hello")] in
  let r := route blocks_memory_save "memory_save" params Posix.start in
  validate_action blocks_memory_save O "memory_save" params
    = Ret (false, "Action 'memory_save' is blocked for safety reasons")
  ∧ dict_get "success" r.2 = Some (VBool true)
  ∧ dict_get "suggestion" r.2 = None
  ∧ row_count (conversations (memory r.1)) = 1.
Proof. by vm_compute. Qed.

(** C2 (as amended): the confirmation check lives in the file and email
    handlers, after validation.  For a file- or email-prefixed action in
    the requires-confirmation set that validation allows, [route] returns,
    with the state untouched (no handler method has run), the dict with
    success false, requires_confirmation true, the confirmation message,
    the original params, and the module and action stamps. *)
Theorem route_awaits_confirmation {W : Type} `{Platform W}
    (cfg : Config) (action : string) (params : value) (st : State W)
    (reason : string) :
  requires_confirmation cfg action = true →
  validate_action cfg (world st) action params = Ret (true, reason) →
  (startswith action "file_" = true →
   route cfg action params st
   = (st, [ ("success", VBool false);
            ("requires_confirmation", VBool true);
            ("message", VStr ("Please confirm: " +:+ action));
            ("params", params);
            ("module", VStr "file");
            ("action", VStr action) ]))
  ∧ (startswith action "email_" = true →
     route cfg action params st
     = (st, [ ("success", VBool false);
              ("requires_confirmation", VBool true);
              ("message", VStr ("Please confirm: " +:+ action));
              ("params", params);
              ("module", VStr "email");
              ("action", VStr action) ])).
Proof.
  intros Hconfirm Hallowed. split.
  - intros Hfile. destruct (route_file cfg action Hfile) as [Hfind Hget].
    rewrite (route_registered cfg _ params st _ _ Hfind Hget).
    unfold on_world, FileActionsModule_execute.
    rewrite Hallowed, Hconfirm. simpl. by destruct st.
  - intros Hemail.
    destruct (route_email cfg action Hemail) as [Hfind Hget].
    rewrite (route_registered cfg _ params st _ _ Hfind Hget).
    unfold on_world, EmailModule_execute.
    rewrite Hallowed, Hconfirm. simpl. by destruct st.
Qed.

(** With [file_delete] awaiting confirmation, routing it returns the
    request for confirmation with the params echoed, and no handler
    method has been counted. *)
Lemma route_awaits_confirmation_witness :
  route confirms_deletions "file_delete"
    (VDict [("path", VStr "/tmp/a.txt")]) Posix.start
  = (Posix.start,
     [ ("success", VBool false);
       ("requires_confirmation", VBool true);
       ("message", VStr "Please confirm: file_delete");
       ("params", VDict [("path", VStr "/tmp/a.txt")]);
       ("module", VStr "file");
       ("action", VStr "file_delete") ]).
Proof.
  apply (route_awaits_confirmation confirms_deletions "file_delete"
           (VDict [("path", VStr "/tmp/a.txt")]) Posix.start
           "File action is safe");
    reflexivity.
Defined.

(** C2 (as stated) fails: with [memory_clear] in the requires-confirmation
    set, [route] answers no confirmation request: the memory handler runs
    and the conversation table is emptied. *)
Lemma route_runs_unconfirmed_memory_clear :
  let r := route confirms_deletions "memory_clear" (VDict []) one_turn in
  requires_confirmation confirms_deletions "memory_clear" = true
  ∧ row_count (conversations (memory one_turn)) = 1
  ∧ dict_get "requires_confirmation" r.2 = None
  ∧ dict_get "success" r.2 = Some (VBool true)
  ∧ row_count (conversations (memory r.1)) = 0.
Proof. by vm_compute. Qed.

Section BatchFacts.

Context {W : Type} `{Platform W}.
Variable cfg : Config.

(** One turn of the loop appends the answer owed to the request. *)
Lemma process_loop_cons tool_call rest results st :
  names_action tool_call = true →
  process_loop cfg (tool_call :: rest) results st
  = process_loop cfg rest (results ++ [(answer cfg tool_call st).2])%list
                 (answer cfg tool_call st).1.
Proof.
  destruct tool_call as [| | | | |?|d]; try done. simpl.
  destruct (dict_get "action" d) as [[|b|n|l|a|l|e]|]; simpl; try done;
    try (by intros ->).
  destruct (String.eqb a ""); simpl; [done|].
  by destruct (dict_get "params" d).
Qed.

Lemma process_loop_results tool_calls results st :
  Forall (λ c, names_action c = true) tool_calls →
  ∃ answers,
    process_loop cfg tool_calls results st
    = (state_before cfg (length tool_calls) tool_calls st,
       Ret (results ++ answers)%list)
    ∧ length answers = length tool_calls
    ∧ ∀ i tool_call,
        tool_calls !! i = Some tool_call →
        answers !! i
        = Some (answer cfg tool_call (state_before cfg i tool_calls st)).2.
Proof.
  intros Hcalls. revert results st.
  induction Hcalls as [|tool_call rest Hcall _ IH]; intros results st.
  - exists []. simpl. rewrite app_nil_r. by split.
  - rewrite process_loop_cons by done.
    destruct (IH (results ++ [(answer cfg tool_call st).2])%list
                 (answer cfg tool_call st).1)
      as (answers & Hloop & Hlen & Hpos).
    exists ((answer cfg tool_call st).2 :: answers).
    split; [|split].
    + rewrite Hloop. simpl. by rewrite <- app_assoc.
    + simpl. by rewrite Hlen.
    + intros [|i] c; simpl.
      * by intros [= ->].
      * apply Hpos.
Qed.

End BatchFacts.




(** * Further properties *)

(** ** Texts that continue *)

Lemma app_String x a b : String x a +:+ b = String x (a +:+ b).
Proof. done. Qed.

Lemma app_empty_l b : "" +:+ b = b.
Proof. done. Qed.

Lemma str_len_app a b : str_len (a +:+ b) = str_len a + str_len b.
Proof.
  unfold str_len. induction a as [|x a IH].
  - rewrite app_empty_l. simpl. lia.
  - rewrite app_String. simpl. lia.
Qed.

Lemma str_len_nonneg s : 0 ≤ str_len s.
Proof. unfold str_len. lia. Qed.

Lemma str_at_cons x s i : 0 ≤ i → str_at (String x s) (1 + i) = str_at s i.
Proof.
  intros Hi. unfold str_at.
  destruct (Z.ltb_spec (1 + i) 0); [lia|]. destruct (Z.ltb_spec i 0); [lia|].
  replace (Z.to_nat (1 + i)) with (S (Z.to_nat i)) by lia. done.
Qed.

Lemma str_at_app_r a b i :
  0 ≤ i → str_at (a +:+ b) (str_len a + i) = str_at b i.
Proof.
  intros Hi. induction a as [|x a IH].
  - rewrite app_empty_l. unfold str_len. simpl. by rewrite Z.add_0_l.
  - rewrite app_String. replace (str_len (String x a) + i) with (1 + (str_len a + i))
      by (unfold str_len; simpl; lia).
    rewrite str_at_cons; [done|]. pose proof (str_len_nonneg a). lia.
Qed.

Lemma str_at_app_l a b i c :
  str_at a i = Some c → str_at (a +:+ b) i = Some c.
Proof.
  unfold str_at. destruct (i <? 0); [done|].
  generalize (Z.to_nat i) as n. intros n. revert n.
  induction a as [|x a IH]; intros [|n]; rewrite ?app_String; simpl; try done.
  apply IH.
Qed.

Lemma str_slice_app_r a b i j :
  0 ≤ i → str_slice (a +:+ b) (str_len a + i) (str_len a + j) = str_slice b i j.
Proof.
  intros Hi. unfold str_slice.
  replace (str_len a + j - (str_len a + i)) with (j - i) by lia.
  generalize (Z.to_nat (j - i)) as m. intros m.
  replace (Z.to_nat (str_len a + i)) with (String.length a + Z.to_nat i)%nat
    by (unfold str_len; lia).
  induction a as [|x a IH]; rewrite ?app_String; simpl; done.
Qed.

Lemma str_slice_whole a b : str_slice (a +:+ b) 0 (str_len a) = a.
Proof.
  unfold str_slice, str_len. rewrite Z.sub_0_r, Nat2Z.id.
  change (Z.to_nat 0) with O.
  induction a as [|x a IH]; rewrite ?app_String; simpl.
  - by destruct b.
  - by rewrite IH.
Qed.

(** *** Scanning a text that continues *)

Lemma scan_braces_shift pre text n i brace_count end_idx :
  0 ≤ i →
  scan_braces (pre +:+ text) n (str_len pre + i) brace_count (str_len pre + end_idx)
  = ((scan_braces text n i brace_count end_idx).1,
     str_len pre + (scan_braces text n i brace_count end_idx).2).
Proof.
  revert i brace_count. induction n as [|n IH]; intros i bc Hi; simpl; [done|].
  rewrite str_at_app_r by done.
  destruct (str_at text i) as [c|]; [|done].
  replace (str_len pre + i + 1) with (str_len pre + (i + 1)) by lia.
  destruct (Ascii.eqb c "{"); [apply IH; lia|].
  destruct (Ascii.eqb c "}"); [|apply IH; lia].
  destruct (bc - 1 =? 0); [done|apply IH; lia].
Qed.

Lemma scan_braces_end_nonneg text n i brace_count end_idx :
  0 ≤ i → 0 ≤ end_idx → 0 ≤ (scan_braces text n i brace_count end_idx).2.
Proof.
  revert i brace_count. induction n as [|n IH]; intros i bc Hi He; simpl; [done|].
  destruct (str_at text i) as [c|]; [|done].
  destruct (Ascii.eqb c "{"); [apply IH; lia|].
  destruct (Ascii.eqb c "}"); [|apply IH; lia].
  destruct (bc - 1 =? 0); [simpl; lia|apply IH; lia].
Qed.

Lemma find_char_shift c pre text n i :
  0 ≤ i →
  find_char c (pre +:+ text) n (str_len pre + i)
  = shift (str_len pre) (find_char c text n i).
Proof.
  revert i. induction n as [|n IH]; intros i Hi; simpl; [done|].
  rewrite str_at_app_r by done.
  destruct (str_at text i) as [c'|]; [|done].
  destruct (Ascii.eqb c' c).
  - unfold shift. destruct (Z.eqb_spec i (-1)); [lia|done].
  - replace (str_len pre + i + 1) with (str_len pre + (i + 1)) by lia.
    apply IH. lia.
Qed.

Lemma str_find_shift c pre text start :
  0 ≤ start →
  str_find (pre +:+ text) c (str_len pre + start)
  = shift (str_len pre) (str_find text c start).
Proof.
  intros Hs. unfold str_find. rewrite str_len_app.
  replace (str_len pre + str_len text - (str_len pre + start))
    with (str_len text - start) by lia.
  by apply find_char_shift.
Qed.

Section Shifted.

Variable json_loads : string → loads_result.

Lemma extract_loop_shift pre text fuel start tool_calls :
  start = -1 ∨ 0 ≤ start →
  extract_loop json_loads fuel (pre +:+ text) (shift (str_len pre) start) tool_calls
  = extract_loop json_loads fuel text start tool_calls.
Proof.
  revert start tool_calls. induction fuel as [|fuel IH]; intros start acc Hstart.
  - simpl. unfold shift. pose proof (str_len_nonneg pre).
    destruct (Z.eqb_spec start (-1)) as [->|Hne]; [done|].
    destruct Hstart; [done|]. by destruct (Z.eqb_spec (str_len pre + start) (-1)); [lia|].
  - simpl. unfold shift at 1. pose proof (str_len_nonneg pre).
    destruct (Z.eqb_spec start (-1)) as [->|Hne]; [done|].
    destruct Hstart as [|Hstart]; [done|].
    destruct (Z.eqb_spec (str_len pre + start) (-1)); [lia|].
    unfold shift. destruct (Z.eqb_spec start (-1)); [done|].
    rewrite str_len_app.
    replace (str_len pre + str_len text - (str_len pre + start))
      with (str_len text - start) by lia.
    rewrite scan_braces_shift by done.
    pose proof (scan_braces_end_nonneg text (Z.to_nat (str_len text - start))
                  start 0 start Hstart Hstart) as Hend.
    destruct (scan_braces text (Z.to_nat (str_len text - start)) start 0 start)
      as [brace_count end_idx]; simpl in *.
    destruct (brace_count =? 0); [|done].
    rewrite str_slice_app_r by done.
    rewrite str_find_shift by done.
    assert (Hnext : str_find text "{" end_idx = -1 ∨ 0 ≤ str_find text "{" end_idx).
    { destruct (str_find_spec text "{" end_idx) as [->|[Hle _]]; [by left|right; lia]. }
    destruct (json_loads (str_slice text start end_idx)) as [v| |]; [|by apply IH|done].
    destruct (contains_action v) as [[|]|e]; [by apply IH..|done].
Qed.

(** The calls found so far are carried along unchanged. *)
Lemma extract_loop_acc fuel text start tool_calls :
  extract_loop json_loads fuel text start tool_calls
  = (tool_calls ++.) <$> extract_loop json_loads fuel text start [].
Proof.
  revert start tool_calls. induction fuel as [|fuel IH]; intros start acc; simpl.
  - destruct (start =? -1); simpl; [by rewrite app_nil_r|done].
  - destruct (start =? -1); simpl; [by rewrite app_nil_r|].
    destruct (scan_braces _ _ _ _ _) as [brace_count end_idx].
    destruct (brace_count =? 0); simpl; [|by rewrite app_nil_r].
    destruct (json_loads _) as [v| |]; simpl; [|apply IH|by rewrite app_nil_r].
    destruct (contains_action v) as [[|]|e]; simpl;
      [|apply IH|by rewrite app_nil_r].
    rewrite (IH _ (acc ++ [v])%list), (IH _ [v]).
    destruct (extract_loop json_loads fuel text _ []) as [r|]; simpl; [|done].
    by rewrite <- app_assoc.
Qed.

(** More fuel than needed changes nothing. *)
Lemma extract_loop_more_fuel fuel fuel' text start tool_calls r :
  (fuel ≤ fuel')%nat →
  extract_loop json_loads fuel text start tool_calls = Some r →
  extract_loop json_loads fuel' text start tool_calls = Some r.
Proof.
  revert fuel' start tool_calls.
  induction fuel as [|fuel IH]; intros fuel' start acc Hle; simpl.
  - destruct (start =? -1) eqn:Hs; [|done]. intros [= <-].
    destruct fuel'; simpl; by rewrite Hs.
  - destruct fuel' as [|fuel']; [lia|]. simpl.
    destruct (start =? -1); [done|].
    destruct (scan_braces _ _ _ _ _) as [brace_count end_idx].
    destruct (brace_count =? 0); [|done].
    destruct (json_loads _) as [v| |]; [|apply IH; lia|done].
    destruct (contains_action v) as [[|]|e]; [apply IH; lia..|done].
Qed.

End Shifted.

Lemma occurs_str_at c s i : occurs c s = false → str_at s i ≠ Some c.
Proof.
  unfold str_at. destruct (i <? 0); [done|].
  generalize (Z.to_nat i) as n. intros n. revert n.
  induction s as [|x s IH]; intros n; simpl; [by destruct n|].
  intros [Hx Hs]%orb_false_iff. destruct n as [|n]; [|by apply IH].
  intros [= ->]. by rewrite Ascii.eqb_refl in Hx.
Qed.

Lemma str_find_skip c pre text :
  occurs c pre = false →
  str_find (pre +:+ text) c 0 = shift (str_len pre) (str_find text c 0).
Proof.
  induction pre as [|x pre IH]; intros Hno.
  - rewrite app_empty_l. unfold shift, str_len. simpl.
    destruct (str_find_spec text c 0) as [->|[Hle _]]; [done|].
    by destruct (Z.eqb_spec (str_find text c 0) (-1)); [lia|].
  - simpl in Hno. apply orb_false_iff in Hno as [Hx Hno].
    rewrite app_String. unfold str_find at 1.
    pose proof (str_len_nonneg (pre +:+ text)).
    replace (Z.to_nat (str_len (String x (pre +:+ text)) - 0))
      with (S (Z.to_nat (str_len (pre +:+ text) - 0)))
      by (unfold str_len in *; simpl; lia).
    simpl. rewrite Hx.
    pose proof (find_char_shift c (String x "") (pre +:+ text)
                  (Z.to_nat (str_len (pre +:+ text) - 0)) 0) as Hshift.
    change (String x "" +:+ (pre +:+ text)) with (String x (pre +:+ text)) in Hshift.
    change (str_len (String x "") + 0) with (0 + 1) in Hshift.
    rewrite Hshift by lia. fold (str_find (pre +:+ text) c 0).
    rewrite IH by done. unfold shift.
    replace (str_len (String x pre)) with (1 + str_len pre)
      by (unfold str_len; simpl; lia).
    change (str_len (String x "")) with 1.
    destruct (Z.eqb_spec (str_find text c 0) (-1)); [done|].
    pose proof (str_len_nonneg pre).
    destruct (str_find_spec text c 0) as [|[Hle _]]; [done|].
    destruct (Z.eqb_spec (str_len pre + str_find text c 0) (-1)); lia.
Qed.

Section Composition.

Variable json_loads : string → loads_result.

Lemma extract_tool_calls_Some text :
  ∃ calls, extract_tool_calls json_loads text = Some calls.
Proof.
  destruct (extract_loop_fuel json_loads (λ _, True) (λ _ _ _ _ _, I) text
              (String.length text) (str_find text "{" 0) []) as (calls & Hrun & _).
  - constructor.
  - destruct (str_find_spec text "{" 0) as [->|[Hle Hat]]; [by left|].
    right. split; [done|]. apply str_at_bounds in Hat. unfold str_len in *. lia.
  - by exists calls.
Qed.

(** Where the search starts matters only through the text from there on. *)
Lemma extract_loop_from pre text start fuel :
  start = -1 ∨ 0 ≤ start →
  (String.length text ≤ fuel)%nat →
  str_find text "{" 0 = start →
  extract_loop json_loads fuel (pre +:+ text) (shift (str_len pre) start) []
  = extract_tool_calls json_loads text.
Proof.
  intros Hstart Hfuel <-. rewrite extract_loop_shift by done.
  destruct (extract_tool_calls_Some text) as [calls Hcalls]. rewrite Hcalls.
  by apply (extract_loop_more_fuel json_loads (String.length text)).
Qed.

Lemma str_find_start text :
  str_find text "{" 0 = -1 ∨ 0 ≤ str_find text "{" 0.
Proof. destruct (str_find_spec text "{" 0) as [->|[? _]]; [by left|by right]. Qed.

Lemma leading_prose_skipped pre text :
  occurs "{" pre = false →
  extract_tool_calls json_loads (pre +:+ text) = extract_tool_calls json_loads text.
Proof.
  intros Hno. unfold extract_tool_calls at 1.
  rewrite str_find_skip by done.
  apply extract_loop_from; [apply str_find_start| |done].
  pose proof (str_len_app pre text). unfold str_len in *. lia.
Qed.

(** Prose without an opening brace before the first tool call changes
    nothing: the calls extracted are those of the text after it. *)
Theorem extract_skips_leading_prose pre text :
  occurs "{" pre = false →
  extract_tool_calls json_loads (pre +:+ text) = extract_tool_calls json_loads text.
Proof. exact (leading_prose_skipped pre text). Qed.

Lemma no_brace_no_call text :
  occurs "{" text = false → extract_tool_calls json_loads text = Some [].
Proof.
  intros Hno. unfold extract_tool_calls.
  destruct (str_find_spec text "{" 0) as [->|[_ Hat]].
  - by destruct (String.length text).
  - by apply occurs_str_at in Hat.
Qed.

(** A text without an opening brace yields no tool call, and the decoder
    is never asked. *)
Theorem extract_no_brace text :
  occurs "{" text = false → extract_tool_calls json_loads text = Some [].
Proof. exact (no_brace_no_call text). Qed.

End Composition.

Lemma extract_skips_leading_prose_witness :
  extract_tool_calls Json.loads ("Sure, listing: " +:+ Json.dq "{'action':'file_list'}")
  = Some [VDict [("action", VStr "file_list")]].
Proof.
  rewrite (extract_skips_leading_prose Json.loads) by reflexivity. reflexivity.
Defined.

Lemma extract_no_brace_witness :
  extract_tool_calls Json.loads "I will list the files for you." = Some [].
Proof. apply extract_no_brace. reflexivity. Defined.

(** A scan that closes within [obj] closes at the same place when the
    text goes on after [obj]. *)
Lemma scan_braces_app obj rest n n' i brace_count end_idx :
  1 ≤ brace_count → (n ≤ n')%nat →
  (scan_braces obj n i brace_count end_idx).1 = 0 →
  scan_braces (obj +:+ rest) n' i brace_count end_idx
  = scan_braces obj n i brace_count end_idx.
Proof.
  revert n' i brace_count.
  induction n as [|n IH]; intros n' i bc Hbc Hle; simpl; [lia|].
  destruct (str_at obj i) as [c|] eqn:Hat; simpl; [|lia].
  destruct n' as [|n']; [lia|]. simpl.
  rewrite (str_at_app_l _ _ _ _ Hat).
  destruct (Ascii.eqb c "{"); [apply IH; lia|].
  destruct (Ascii.eqb c "}"); [|apply IH; lia].
  destruct (Z.eqb_spec (bc - 1) 0); [done|apply IH; lia].
Qed.

Section Spans.

Variable json_loads : string → loads_result.

(** When a text begins with a span that the brace scan closes exactly at
    its end, the loop hands that span to the decoder, keeps or drops the
    result, and goes on with the text after the span. *)
Lemma extract_first_span obj rest :
  matched_span obj = true →
  extract_tool_calls json_loads (obj +:+ rest)
  = keep (json_loads obj) (extract_tool_calls json_loads rest).
Proof.
  unfold matched_span. intros [Hbrace Hscan%bool_decide_eq_true_1]%andb_true_iff.
  destruct obj as [|c obj]; [done|].
  assert (c = "{"%char) as ->.
  { unfold startswith in Hbrace. cbn [String.prefix] in Hbrace.
    by destruct (ascii_dec "{" c). }
  unfold extract_tool_calls at 1.
  assert (Hfind : str_find (String "{" obj +:+ rest) "{" 0 = 0).
  { unfold str_find. rewrite app_String.
    pose proof (str_len_nonneg (obj +:+ rest)).
    replace (Z.to_nat (str_len (String "{" (obj +:+ rest)) - 0))
      with (S (Z.to_nat (str_len (obj +:+ rest))))
      by (unfold str_len in *; simpl; lia).
    done. }
  rewrite Hfind.
  pose proof (str_len_app (String "{" obj) rest) as Hlen.
  assert (Hobj : str_len (String "{" obj) = 1 + str_len obj)
    by (unfold str_len; simpl; lia).
  pose proof (str_len_nonneg obj). pose proof (str_len_nonneg rest).
  destruct (String.length (String "{" obj +:+ rest)) as [|fuel] eqn:Hfuel.
  { unfold str_len in *. lia. }
  cbn [extract_loop]. change (0 =? -1) with false. cbv iota.
  assert (Hspan : scan_braces (String "{" obj +:+ rest)
                    (Z.to_nat (str_len (String "{" obj +:+ rest) - 0)) 0 0 0
                  = (0, str_len (String "{" obj))).
  { rewrite <- Hscan.
    replace (Z.to_nat (str_len (String "{" obj +:+ rest) - 0))
      with (S (Z.to_nat (str_len obj + str_len rest))) by lia.
    simpl in Hscan |- *. rewrite app_String. simpl.
    change (String "{" (obj +:+ rest)) with (String "{" obj +:+ rest).
    rewrite (scan_braces_app (String "{" obj) rest (String.length obj));
      [done|lia|unfold str_len; lia|by rewrite Hscan]. }
  rewrite Hspan. change (0 =? 0) with true. cbv iota.
  rewrite str_slice_whole.
  assert (Hnext : extract_loop json_loads fuel (String "{" obj +:+ rest)
                    (str_find (String "{" obj +:+ rest) "{" (str_len (String "{" obj))) []
                  = extract_tool_calls json_loads rest).
  { pose proof (str_find_shift "{" (String "{" obj) rest 0) as Hshift.
    rewrite Z.add_0_r in Hshift. rewrite Hshift by done.
    apply extract_loop_from; [apply str_find_start| |done].
    unfold str_len in *. lia. }
  unfold keep. destruct (json_loads (String "{" obj)) as [v| |]; [|done..].
  destruct (contains_action v) as [[|]|e]; [|done..].
  rewrite extract_loop_acc, Hnext.
  by destruct (extract_tool_calls json_loads rest).
Qed.

End Spans.

Section Layout.

Variable json_loads : string → loads_result.

Lemma layout_visited blocks closing :
  Forall (λ b, occurs "{" b.1 = false ∧ matched_span b.2 = true) blocks →
  occurs "{" closing = false →
  extract_tool_calls json_loads (layout blocks closing)
  = foldr (λ b later, keep (json_loads b.2) later) (Some []) blocks.
Proof.
  intros Hblocks Hclosing.
  induction Hblocks as [|[prose obj] blocks [Hprose Hobj] _ IH]; simpl.
  - by apply no_brace_no_call.
  - rewrite leading_prose_skipped by done.
    rewrite extract_first_span by done. by rewrite IH.
Qed.

(** On a text made of brace-matched spans separated by brace-free prose the
    extractor visits the spans from left to right: a span that decodes to
    an object with an "action" key is kept, a span that fails to decode or
    lacks the key is skipped, and an exception other than a decode error
    ends the extraction with what was kept before it. *)
Theorem extract_layout blocks closing :
  Forall (λ b, occurs "{" b.1 = false ∧ matched_span b.2 = true) blocks →
  occurs "{" closing = false →
  extract_tool_calls json_loads (layout blocks closing)
  = foldr (λ b later, keep (json_loads b.2) later) (Some []) blocks.
Proof. exact (layout_visited blocks closing). Qed.

(** N tool-call blocks, each a brace-matched span that decodes to an
    object with an "action" key, separated by brace-free prose, yield
    exactly those N objects in the order of the text. *)
Theorem extract_blocks_in_order (blocks : list (string * string * value)) closing :
  Forall (λ b, occurs "{" b.1.1 = false
               ∧ matched_span b.1.2 = true
               ∧ json_loads b.1.2 = LoadsOk b.2
               ∧ contains_action b.2 = Ret true) blocks →
  occurs "{" closing = false →
  extract_tool_calls json_loads (layout (fst <$> blocks) closing)
  = Some (snd <$> blocks).
Proof.
  intros Hblocks Hclosing. rewrite layout_visited; [|clear Hclosing|done].
  - induction Hblocks as [|[[prose obj] v] blocks (_ & _ & Hv & Hin) _ IH];
      [done|].
    rewrite !fmap_cons. cbn [foldr]. rewrite IH. cbn [fst snd] in *.
    rewrite Hv. unfold keep. by rewrite Hin.
  - induction Hblocks as [|b blocks (? & ? & _) _ IH]; simpl; by constructor.
Qed.

Lemma scan_braces_tail c s n brace_count end_idx :
  (scan_braces (String c s) n 1 brace_count end_idx).1
  = (scan_braces s n 0 brace_count (end_idx - 1)).1.
Proof.
  pose proof (scan_braces_shift (String c "") s n 0 brace_count (end_idx - 1))
    as Hshift.
  change (String c "" +:+ s) with (String c s) in Hshift.
  change (str_len (String c "")) with 1 in Hshift.
  replace (1 + (end_idx - 1)) with end_idx in Hshift by lia.
  rewrite Z.add_0_r in Hshift. by rewrite Hshift.
Qed.

Lemma scan_braces_stays_open s : ∀ n spare end_idx,
  never_closes spare s = true →
  1 ≤ (scan_braces s n 0 (Z.of_nat spare + 1) end_idx).1.
Proof.
  induction s as [|c s IH]; intros n spare end_idx Hopen.
  { destruct n; simpl; lia. }
  destruct n as [|n]; [simpl; lia|].
  cbn [scan_braces]. change (str_at (String c s) 0) with (Some c).
  cbv beta iota. change (0 + 1) with 1. simpl in Hopen.
  destruct (Ascii.eqb c "{").
  { rewrite scan_braces_tail.
    replace (Z.of_nat spare + 1 + 1) with (Z.of_nat (S spare) + 1) by lia.
    by apply IH. }
  destruct (Ascii.eqb c "}").
  - destruct spare as [|fewer]; [done|].
    replace (Z.of_nat (S fewer) + 1 - 1) with (Z.of_nat fewer + 1) by lia.
    destruct (Z.eqb_spec (Z.of_nat fewer + 1) 0) as [|_]; [lia|].
    rewrite scan_braces_tail. by apply IH.
  - rewrite scan_braces_tail. by apply IH.
Qed.

(** An opening brace whose match never comes ends the extraction with
    nothing when only brace-free prose precedes it: whatever follows it,
    well-formed tool calls included, is not looked at. *)
Theorem extract_unclosed_brace prose rest :
  occurs "{" prose = false →
  never_closes 0 rest = true →
  extract_tool_calls json_loads (prose +:+ String "{" rest) = Some [].
Proof.
  intros Hprose Hrest. rewrite leading_prose_skipped by done.
  unfold extract_tool_calls.
  assert (Hfind : str_find (String "{" rest) "{" 0 = 0).
  { unfold str_find. pose proof (str_len_nonneg rest).
    replace (Z.to_nat (str_len (String "{" rest) - 0))
      with (S (Z.to_nat (str_len rest))) by (unfold str_len in *; simpl; lia).
    done. }
  rewrite Hfind. cbn [String.length extract_loop].
  change (0 =? -1) with false. cbv iota.
  pose proof (str_len_nonneg rest).
  replace (Z.to_nat (str_len (String "{" rest) - 0))
    with (S (Z.to_nat (str_len rest))) by (unfold str_len in *; simpl; lia).
  cbn [scan_braces]. change (str_at (String "{" rest) 0) with (Some "{"%char).
  cbv beta iota. rewrite Ascii.eqb_refl. change (0 + 1) with 1.
  pose proof (scan_braces_stays_open rest (Z.to_nat (str_len rest)) O (0 - 1)
                Hrest) as Hopen.
  change (Z.of_nat 0 + 1) with 1 in Hopen.
  rewrite <- (scan_braces_tail "{" rest _ 1 0) in Hopen.
  destruct (scan_braces _ _ _ _ _) as [brace_count end_idx]. simpl in Hopen.
  cbv beta iota.
  destruct (Z.eqb_spec brace_count 0) as [->|]; [lia|done].
Qed.

End Layout.

(** A malformed span is skipped and the tool call after it is found. *)
Lemma extract_layout_witness :
  extract_tool_calls Json.loads
    (layout [("First ", "{bad}"); (" then ", Json.dq "{'action':'x'}")] " done.")
  = Some [VDict [("action", VStr "x")]].
Proof.
  rewrite (extract_layout Json.loads); [reflexivity| |reflexivity].
  repeat constructor.
Defined.

Lemma extract_blocks_in_order_witness :
  extract_tool_calls Json.loads
    ("Reading " +:+ Json.dq "{'action':'file_read','params':{'path':'a.txt'}}"
     +:+ " and saving " +:+ Json.dq "{'action':'memory_save'}" +:+ ".")
  = Some [ VDict [("action", VStr "file_read");
                  ("params", VDict [("path", VStr "a.txt")])];
           VDict [("action", VStr "memory_save")] ].
Proof.
  apply (extract_blocks_in_order Json.loads
           [ ("Reading ", Json.dq "{'action':'file_read','params':{'path':'a.txt'}}",
              VDict [("action", VStr "file_read");
                     ("params", VDict [("path", VStr "a.txt")])]);
             (" and saving ", Json.dq "{'action':'memory_save'}",
              VDict [("action", VStr "memory_save")]) ] ".");
    [|reflexivity].
  repeat constructor.
Defined.

(** The tool call that follows the open brace is well formed, and lost. *)
Lemma extract_unclosed_brace_witness :
  extract_tool_calls Json.loads
    ("Let x = " +:+ String "{" (Json.dq " and then {'action':'file_list'}"))
  = Some []
  ∧ extract_tool_calls Json.loads (Json.dq " and then {'action':'file_list'}")
    = Some [VDict [("action", VStr "file_list")]].
Proof.
  split; [|reflexivity].
  apply extract_unclosed_brace; reflexivity.
Defined.

(** ** The memory store, further *)

Lemma next_id_above db i : i ∈ dom (conversations db) → i < next_id db.
Proof.
  intros Hin. apply elem_of_elements, foldr_max_ge in Hin.
  unfold next_id. lia.
Qed.

Lemma foldr_max_le (l : list Z) b : 0 ≤ b → (∀ i, i ∈ l → i ≤ b) → foldr Z.max 0 l ≤ b.
Proof.
  intros Hb. induction l as [|i l IH]; intros Hall; simpl; [done|].
  assert (i ≤ b) by (apply Hall; left).
  assert (foldr Z.max 0 l ≤ b) by (apply IH; intros j Hj; apply Hall; by right).
  lia.
Qed.

Lemma evict_oldest_dom max_history db i :
  i ∈ dom (conversations (evict_oldest max_history db)) →
  i ∈ dom (conversations db).
Proof.
  unfold evict_oldest. destruct (max_history <? row_count (conversations db)); [|done].
  simpl. rewrite dom_delete_ids. by intros [? _]%elem_of_difference.
Qed.

Lemma evict_oldest_sequence max_history db :
  sequence (evict_oldest max_history db) = sequence db.
Proof. unfold evict_oldest. by destruct (_ <? _). Qed.

Lemma evict_oldest_context max_history db :
  context (evict_oldest max_history db) = context db.
Proof. unfold evict_oldest. by destruct (_ <? _). Qed.

(** Ids are handed out in increasing order and never again: a save never
    lowers the sequence, every id in the table stays at or below it, and a
    save that stores a turn uses an id above every id the table holds or
    has held. *)
Lemma _save_memory_ids max_history timestamp params db :
  let db' := (_save_memory max_history timestamp params db).1 in
  sequence db ≤ sequence db'
  ∧ (ids_within db → ids_within db')
  ∧ (stores_turn params = true →
     sequence db < sequence db'
     ∧ (∀ i, i ∈ dom (conversations db) → i < sequence db')
     ∧ ∀ i, i ∈ dom (conversations db') →
            i ∈ dom (conversations db) ∨ i = sequence db').
Proof.
  simpl. destruct (stores_turn params) eqn:Hturn.
  - destruct (_save_memory_stores max_history timestamp params db Hturn)
      as [row ->]. simpl. rewrite evict_oldest_sequence. simpl.
    assert (Hseq : sequence db < next_id db) by (unfold next_id; lia).
    assert (Hdom : ∀ i, i ∈ dom (conversations
               (evict_oldest max_history
                  {| conversations := <[next_id db:=row]> (conversations db);
                     sequence := next_id db; context := context db |})) →
             i ∈ dom (conversations db) ∨ i = next_id db).
    { intros i Hi%evict_oldest_dom. simpl in Hi.
      apply dom_insert, elem_of_union in Hi as [->%elem_of_singleton|Hi];
        [by right|by left]. }
    split; [lia|]. split.
    + intros Hwithin i Hi. rewrite evict_oldest_sequence. simpl.
      destruct (Hdom i Hi) as [Hold| ->]; [|lia].
      apply Hwithin in Hold. lia.
    + intros _. split; [done|]. split; [|done].
      intros i Hi. by apply next_id_above.
  - rewrite _save_memory_no_store by done. split; [lia|]. split; [done|done].
Qed.

(** The row a storing save inserts. *)
Lemma _save_memory_row max_history timestamp d db :
  stores_turn (VDict d) = true →
  _save_memory max_history timestamp (VDict d) db
  = (evict_oldest max_history
       {| conversations :=
            <[next_id db :=
                {| timestamp := timestamp;
                   role := default (VStr "user") (dict_get "role" d);
                   content := default (VStr "") (dict_get "content" d);
                   metadata := default (VDict []) (dict_get "metadata" d) |}]>
              (conversations db);
          sequence := next_id db;
          context := context db |},
     Ret [("success", VBool true); ("message", VStr "Memory saved")]).
Proof.
  unfold stores_turn, _save_memory, insert_conversation. simpl.
  intros [[Htruthy [Hrole Hcontent]%andb_true_iff]%andb_true_iff
            [Hnrole Hncontent]%negb_true_iff%orb_false_iff]%andb_true_iff.
  rewrite Htruthy. simpl. by rewrite Hrole, Hcontent, Hnrole, Hncontent.
Qed.

(** With room for at least one turn, the turn just saved is in the table
    under the new id, as given: eviction never removes it. *)
Lemma save_memory_newest_kept max_history timestamp d db :
  1 ≤ max_history →
  stores_turn (VDict d) = true →
  conversations (_save_memory max_history timestamp (VDict d) db).1 !! next_id db
  = Some {| timestamp := timestamp;
            role := default (VStr "user") (dict_get "role" d);
            content := default (VStr "") (dict_get "content" d);
            metadata := default (VDict []) (dict_get "metadata" d) |}.
Proof.
  intros Hmax Hturn. rewrite _save_memory_row by done. simpl.
  set (row := {| timestamp := timestamp; role := _; content := _; metadata := _ |}).
  set (inserted := {| conversations := <[next_id db:=row]> (conversations db);
                      sequence := next_id db; context := context db |}).
  destruct (evict_oldest_spec max_history inserted) as (_ & Hfits & Hover); [lia|].
  simpl in Hfits, Hover.
  destruct (Z.le_gt_cases (row_count (<[next_id db:=row]> (conversations db)))
              max_history) as [Hle|Hgt].
  - rewrite Hfits by done. apply lookup_insert_eq.
  - destruct Hover as (Hcount & Hsub & Hfifo); [lia|].
    set (after := conversations (evict_oldest max_history inserted)) in *.
    assert (Hin : next_id db ∈ dom after).
    { destruct (decide (next_id db ∈ dom after)) as [|Hout]; [done|].
      assert (Hne : after ≠ ∅).
      { intros Hempty. rewrite Hempty in Hcount. unfold row_count in Hcount.
        rewrite map_size_empty in Hcount. lia. }
      apply map_choose in Hne as (j & rowj & Hj).
      assert (Hjdom : j ∈ dom after) by (apply elem_of_dom; by eexists).
      assert (next_id db < j).
      { apply Hfifo; [|done..]. apply elem_of_dom. exists row.
        apply lookup_insert_eq. }
      assert (Hjin : <[next_id db:=row]> (conversations db) !! j = Some rowj)
        by (eapply lookup_weaken; done).
      rewrite lookup_insert_ne in Hjin by lia.
      assert (j < next_id db); [|lia].
      apply next_id_above, elem_of_dom. by eexists. }
    apply elem_of_dom in Hin as [row' Hrow'].
    rewrite Hrow'. f_equal.
    pose proof (lookup_weaken _ _ _ _ Hrow' Hsub) as Hins.
    rewrite lookup_insert_eq in Hins. congruence.
Qed.

Lemma omap_reverse {A B} (f : A → option B) (l : list A) :
  omap f (reverse l) = reverse (omap f l).
Proof.
  induction l as [|x l IH]; [done|].
  rewrite reverse_cons, omap_app, IH. simpl.
  destruct (f x); simpl; [by rewrite reverse_cons|by rewrite app_nil_r].
Qed.

Lemma rows_descending_ascending t :
  rows_descending t = reverse (rows_ascending t).
Proof. apply omap_reverse. Qed.

Lemma reverse_limit_rows {A} k (l : list A) :
  reverse (limit_rows k (reverse l)) = most_recent k l.
Proof.
  unfold limit_rows, most_recent. destruct (k <? 0).
  - apply reverse_involutive.
  - by rewrite take_reverse, reverse_involutive.
Qed.

Lemma ids_ascending_empty : ids_ascending (∅ : gmap Z conversation_row) = [].
Proof. reflexivity. Qed.

Lemma rows_of_role_empty float_text role_filter :
  rows_of_role float_text role_filter ∅ = [].
Proof.
  unfold rows_of_role, rows_ascending. rewrite ids_ascending_empty.
  destruct role_filter; try done. by destruct (String.eqb _ _).
Qed.

Lemma most_recent_nil {A} k : most_recent k (@nil A) = [].
Proof. unfold most_recent. by destruct (k <? 0). Qed.

Section StoreFacts.

Variable json_dumps : value → string.
Variable json_loads : string → loads_result.
Variable loads_error : string → string.
Variable float_text : string → string.
Variable other_query : string → value → MemoryDb → MemoryDb * outcome dict.

Lemma history_of_reported rows :
  Forall (λ row, reads_back json_dumps json_loads (metadata row)) rows →
  history_of json_dumps json_loads loads_error float_text rows
  = Ret (reported float_text <$> rows).
Proof.
  induction 1 as [|row rows [Htext Hback] _ IH]; [done|].
  simpl. unfold history_entry, read_metadata.
  apply String.eqb_neq in Htext. rewrite Htext, Hback. simpl.
  by rewrite IH.
Qed.

Lemma recall_memory_reports d db k role_filter :
  default (VInt 10) (dict_get "limit" d) = VInt k →
  bindable (VInt k) = true →
  default VNone (dict_get "role" d) = role_filter →
  truthy role_filter = false ∨ (∃ r, role_filter = VStr r) →
  let chosen := most_recent k (rows_of_role float_text role_filter (conversations db)) in
  Forall (λ row, reads_back json_dumps json_loads (metadata row)) chosen →
  _recall_memory json_dumps json_loads loads_error float_text other_query (VDict d) db
  = (db, Ret [ ("success", VBool true);
               ("history", VList (reported float_text <$> chosen));
               ("count", VInt (Z.of_nat (length chosen))) ]).
Proof.
  intros Hlimit Hbind Hrole Hshape chosen Hback.
  unfold _recall_memory. simpl. rewrite Hlimit, Hrole, Hbind.
  assert (Hsel : ∃ rows,
    (if truthy role_filter
     then match role_filter with
          | VStr r => Some (filter (λ row, role_is float_text r row = true)
                              (rows_descending (conversations db)))
          | _ => None
          end
     else Some (rows_descending (conversations db))) = Some (reverse rows)
    ∧ rows = rows_of_role float_text role_filter (conversations db)).
  { unfold rows_of_role. rewrite rows_descending_ascending.
    destruct Hshape as [Hfalsy|[r ->]].
    - rewrite Hfalsy. eexists. split; [done|].
      destruct role_filter; try done. simpl in Hfalsy.
      apply negb_false_iff in Hfalsy. by rewrite Hfalsy.
    - simpl. destruct (String.eqb r ""); simpl; [by eexists|].
      rewrite filter_reverse. by eexists. }
  destruct Hsel as (rows & -> & ->).
  assert (Hhist : limit_rows k (reverse (rows_of_role float_text role_filter
                                           (conversations db)))
                  = reverse chosen).
  { unfold chosen. by rewrite <- reverse_limit_rows, reverse_involutive. }
  rewrite Hhist, history_of_reported.
  - simpl. by rewrite <- fmap_reverse, reverse_involutive, length_fmap.
  - by apply Forall_reverse.
Qed.

End StoreFacts.

Lemma ids_ascending_largest t m :
  m ∈ dom t → (∀ i, i ∈ dom t → i ≤ m) →
  ∃ older, ids_ascending t = (older ++ [m])%list.
Proof.
  intros Hm Hmax.
  pose proof (ids_ascending_sorted t) as Hsorted.
  pose proof (ids_ascending_NoDup t) as Hnodup.
  apply ids_ascending_elem in Hm.
  assert (Hall : ∀ i, i ∈ ids_ascending t → i ≤ m)
    by (intros i Hi; by apply Hmax, ids_ascending_elem).
  destruct (ids_ascending t) as [|x l] using rev_ind; [by apply elem_of_nil in Hm|].
  clear IHl. exists l. f_equal. f_equal.
  apply elem_of_app in Hm as [Hm|Hm%list_elem_of_singleton]; [|done].
  assert (m ≤ x).
  { eapply (StronglySorted_app_1_elem_of Z.le); [done..|]. by left. }
  assert (x ≤ m) by (apply Hall, elem_of_app; right; by left).
  assert (x = m) as -> by lia.
  apply NoDup_app in Hnodup as (_ & Hdisj & _).
  destruct (Hdisj m Hm). by left.
Qed.

Section SaveRecall.

Variable json_dumps : value → string.
Variable json_loads : string → loads_result.
Variable loads_error : string → string.
Variable float_text : string → string.
Variable other_query : string → value → MemoryDb → MemoryDb * outcome dict.

Lemma save_then_recall_one max_history timestamp d db :
  1 ≤ max_history →
  stores_turn (VDict d) = true →
  reads_back json_dumps json_loads (default (VDict []) (dict_get "metadata" d)) →
  _recall_memory json_dumps json_loads loads_error float_text other_query
    (VDict [("limit", VInt 1)])
    (_save_memory max_history timestamp (VDict d) db).1
  = ((_save_memory max_history timestamp (VDict d) db).1,
     Ret [ ("success", VBool true);
           ("history",
            VList [ VDict
              [ ("timestamp", VStr timestamp);
                ("role", sql_read float_text (default (VStr "user") (dict_get "role" d)));
                ("content", sql_read float_text (default (VStr "") (dict_get "content" d)));
                ("metadata", default (VDict []) (dict_get "metadata" d)) ] ]);
           ("count", VInt 1) ]).
Proof.
  intros Hmax Hturn Hback.
  pose proof (save_memory_newest_kept max_history timestamp d db Hmax Hturn) as Hnew.
  set (db' := (_save_memory max_history timestamp (VDict d) db).1) in *.
  set (row := {| timestamp := timestamp; role := _; content := _;
                 metadata := _ |}) in *.
  assert (Hmaxid : ∀ i, i ∈ dom (conversations db') → i ≤ next_id db).
  { intros i Hi. unfold db' in Hi. rewrite _save_memory_row in Hi by done.
    apply evict_oldest_dom in Hi. simpl in Hi.
    apply dom_insert, elem_of_union in Hi as [->%elem_of_singleton|Hi]; [lia|].
    apply next_id_above in Hi. lia. }
  destruct (ids_ascending_largest (conversations db') (next_id db))
    as [older Holder]; [apply elem_of_dom; by eexists|done|].
  assert (Hrecent : most_recent 1 (rows_of_role float_text VNone (conversations db'))
                    = [row]).
  { unfold most_recent, rows_of_role, rows_ascending. simpl.
    rewrite Holder, omap_app. simpl. rewrite Hnew. simpl.
    rewrite length_app. simpl.
    replace (length (omap (λ i, conversations db' !! i) older) + 1 - Pos.to_nat 1)%nat
      with (length (omap (λ i, conversations db' !! i) older)) by lia.
    by rewrite drop_app_length. }
  rewrite (recall_memory_reports json_dumps json_loads loads_error float_text other_query
             [("limit", VInt 1)] db' 1 VNone); try done.
  - by rewrite Hrecent.
  - by left.
  - rewrite Hrecent. by constructor.
Qed.

(** Setting a key and reading it. *)
Lemma set_then_get_context timestamp k d db :
  dict_get "key" d = Some (VStr k) → k ≠ "" →
  let v := default VNone (dict_get "value" d) in
  let db' := (_set_context json_dumps other_query timestamp (VDict d) db).1 in
  json_loads (json_dumps v) = LoadsOk v →
  (_set_context json_dumps other_query timestamp (VDict d) db).2
    = Ret [ ("success", VBool true);
            ("message", VStr ("Context '" +:+ k +:+ "' saved")) ]
  ∧ _get_context json_loads loads_error other_query (VDict [("key", VStr k)]) db'
    = (db', Ret [ ("success", VBool true); ("key", VStr k); ("value", v) ])
  ∧ conversations db' = conversations db
  ∧ sequence db' = sequence db
  ∧ size (context db')
    = (if decide (is_Some (context db !! k)) then size (context db)
       else S (size (context db)))
  ∧ ∀ k', k' ≠ k →
      (_get_context json_loads loads_error other_query (VDict [("key", VStr k')]) db').2
      = (_get_context json_loads loads_error other_query (VDict [("key", VStr k')]) db).2.
Proof.
  intros Hkey Hk v db' Hback.
  apply String.eqb_neq in Hk.
  assert (Hset : _set_context json_dumps other_query timestamp (VDict d) db
    = ({| conversations := conversations db; sequence := sequence db;
          context := <[k := (json_dumps v, timestamp)]> (context db) |},
       Ret [ ("success", VBool true);
             ("message", VStr ("Context '" +:+ k +:+ "' saved")) ])).
  { unfold _set_context. simpl. rewrite Hkey. simpl. by rewrite Hk. }
  unfold db'. rewrite Hset. simpl.
  split; [done|]. split.
  { unfold _get_context. simpl. rewrite Hk. simpl.
    by rewrite lookup_insert_eq, Hback. }
  split; [done|]. split; [done|]. split.
  - destruct (context db !! k) as [old|] eqn:Hold.
    + rewrite decide_True by (by eexists).
      rewrite <- (insert_delete_id (context db) k old) at 2 by done.
      rewrite <- (insert_delete_eq (context db)), !map_size_insert_None;
        by rewrite ?lookup_delete_eq.
    + rewrite decide_False by (by intros [? ?]).
      by apply map_size_insert_None.
  - intros k' Hne. unfold _get_context. simpl.
    destruct (String.eqb k' ""); simpl; [done|].
    rewrite lookup_insert_ne by done.
    by destruct (context db !! k') as [[text at_]|].
Qed.

End SaveRecall.

(** Ids are handed out in increasing order and never again: a save never
    lowers the sequence; if every id in the table is at or below the
    sequence, that stays so; and a save that stores a turn raises the
    sequence above every id in the table, the only new id being the new
    sequence value. *)
Theorem save_memory_ids_increase max_history timestamp params db :
  let db' := (_save_memory max_history timestamp params db).1 in
  sequence db ≤ sequence db'
  ∧ (ids_within db → ids_within db')
  ∧ (stores_turn params = true →
     sequence db < sequence db'
     ∧ (∀ i, i ∈ dom (conversations db) → i < sequence db')
     ∧ ∀ i, i ∈ dom (conversations db') →
            i ∈ dom (conversations db) ∨ i = sequence db').
Proof. exact (_save_memory_ids max_history timestamp params db). Qed.

Lemma save_memory_ids_increase_witness :
  sequence (memory one_turn)
  < sequence (_save_memory 1 "2024-01-01T00:00:01"
                (VDict [("content", VStr "second")]) (memory one_turn)).1.
Proof.
  destruct (save_memory_ids_increase 1 "2024-01-01T00:00:01"
              (VDict [("content", VStr "second")]) (memory one_turn))
    as (_ & _ & Hnew).
  destruct (Hnew eq_refl) as [Hlt _]. exact Hlt.
Defined.

(** With room for at least one turn, the turn just saved is in the table
    under the new id, with the timestamp, role, content and metadata it
    was given: the retention clean-up never removes it. *)
Theorem save_memory_keeps_newest max_history timestamp d db :
  1 ≤ max_history →
  stores_turn (VDict d) = true →
  conversations (_save_memory max_history timestamp (VDict d) db).1 !! next_id db
  = Some {| timestamp := timestamp;
            role := default (VStr "user") (dict_get "role" d);
            content := default (VStr "") (dict_get "content" d);
            metadata := default (VDict []) (dict_get "metadata" d) |}.
Proof. exact (save_memory_newest_kept max_history timestamp d db). Qed.

(** A store limited to one turn that already holds one: the new turn
    replaces it. *)
Lemma save_memory_keeps_newest_witness :
  map_to_list (conversations
    (_save_memory 1 "2024-01-01T00:00:01"
       (VDict [("content", VStr "second"); ("role", VStr "assistant")])
       (memory one_turn)).1)
  = [(2, {| timestamp := "2024-01-01T00:00:01"; role := VStr "assistant";
            content := VStr "second"; metadata := VDict [] |})]
  ∧ conversations
      (_save_memory 1 "2024-01-01T00:00:01"
         (VDict [("content", VStr "second"); ("role", VStr "assistant")])
         (memory one_turn)).1 !! 2
    = Some {| timestamp := "2024-01-01T00:00:01"; role := VStr "assistant";
              content := VStr "second"; metadata := VDict [] |}.
Proof.
  split; [reflexivity|].
  apply (save_memory_keeps_newest 1 "2024-01-01T00:00:01"
           [("content", VStr "second"); ("role", VStr "assistant")]
           (memory one_turn)); [lia|reflexivity].
Defined.

Section StoreEntries.

Variable json_dumps : value → string.
Variable json_loads : string → loads_result.
Variable loads_error : string → string.
Variable float_text : string → string.
Variable other_query : string → value → MemoryDb → MemoryDb * outcome dict.

(** [_recall_memory] with an integer limit [k], and a role filter that is
    absent, empty or a string, leaves the database as it is and reports
    the rows that have that role (all rows without a filter), the last
    [k] of them by id (all of them for a negative [k]), oldest first, with
    [count] their number; provided their metadata reads back from its
    JSON text. *)
Theorem recall_memory_most_recent d db k role_filter :
  default (VInt 10) (dict_get "limit" d) = VInt k →
  bindable (VInt k) = true →
  default VNone (dict_get "role" d) = role_filter →
  truthy role_filter = false ∨ (∃ r, role_filter = VStr r) →
  let chosen := most_recent k (rows_of_role float_text role_filter (conversations db)) in
  Forall (λ row, reads_back json_dumps json_loads (metadata row)) chosen →
  _recall_memory json_dumps json_loads loads_error float_text other_query (VDict d) db
  = (db, Ret [ ("success", VBool true);
               ("history", VList (reported float_text <$> chosen));
               ("count", VInt (Z.of_nat (length chosen))) ]).
Proof.
  exact (recall_memory_reports json_dumps json_loads loads_error float_text other_query
           d db k role_filter).
Qed.

(** Saving a turn and recalling one entry gives that turn back, whatever
    the store held, when it has room for at least one turn: timestamp,
    role and content as text, and the metadata. *)
Theorem save_memory_then_recall max_history timestamp d db :
  1 ≤ max_history →
  stores_turn (VDict d) = true →
  reads_back json_dumps json_loads (default (VDict []) (dict_get "metadata" d)) →
  _recall_memory json_dumps json_loads loads_error float_text other_query
    (VDict [("limit", VInt 1)])
    (_save_memory max_history timestamp (VDict d) db).1
  = ((_save_memory max_history timestamp (VDict d) db).1,
     Ret [ ("success", VBool true);
           ("history",
            VList [ VDict
              [ ("timestamp", VStr timestamp);
                ("role", sql_read float_text (default (VStr "user") (dict_get "role" d)));
                ("content", sql_read float_text (default (VStr "") (dict_get "content" d)));
                ("metadata", default (VDict []) (dict_get "metadata" d)) ] ]);
           ("count", VInt 1) ]).
Proof.
  exact (save_then_recall_one json_dumps json_loads loads_error float_text other_query
           max_history timestamp d db).
Qed.

(** Setting a context key to a value that reads back from its JSON text
    (a missing value is stored as null) succeeds; reading the key then
    returns the value; the conversation table and the id sequence are
    untouched; the context table gains a row only if the key was new; and
    reading any other key answers as before. *)
Theorem set_context_then_get timestamp k d db :
  dict_get "key" d = Some (VStr k) → k ≠ "" →
  let v := default VNone (dict_get "value" d) in
  let db' := (_set_context json_dumps other_query timestamp (VDict d) db).1 in
  json_loads (json_dumps v) = LoadsOk v →
  (_set_context json_dumps other_query timestamp (VDict d) db).2
    = Ret [ ("success", VBool true);
            ("message", VStr ("Context '" +:+ k +:+ "' saved")) ]
  ∧ _get_context json_loads loads_error other_query (VDict [("key", VStr k)]) db'
    = (db', Ret [ ("success", VBool true); ("key", VStr k); ("value", v) ])
  ∧ conversations db' = conversations db
  ∧ sequence db' = sequence db
  ∧ size (context db')
    = (if decide (is_Some (context db !! k)) then size (context db)
       else S (size (context db)))
  ∧ ∀ k', k' ≠ k →
      (_get_context json_loads loads_error other_query (VDict [("key", VStr k')]) db').2
      = (_get_context json_loads loads_error other_query (VDict [("key", VStr k')]) db).2.
Proof.
  exact (set_then_get_context json_dumps json_loads loads_error other_query
           timestamp k d db).
Qed.

(** After [_clear_memory], recalling with an integer limit and a role
    filter that is absent, falsy or a string reports an empty history and
    a count of zero, whatever the store held; and unless [clear_context]
    is truthy, reading any context key answers as before the clearing. *)
Theorem clear_memory_then_recall c d db k role_filter :
  default (VInt 10) (dict_get "limit" d) = VInt k →
  bindable (VInt k) = true →
  default VNone (dict_get "role" d) = role_filter →
  truthy role_filter = false ∨ (∃ r, role_filter = VStr r) →
  (_recall_memory json_dumps json_loads loads_error float_text other_query
     (VDict d) (_clear_memory (VDict c) db).1).2
  = Ret [ ("success", VBool true); ("history", VList []); ("count", VInt 0) ]
  ∧ (truthy (default (VBool false) (dict_get "clear_context" c)) = false →
     ∀ key,
       (_get_context json_loads loads_error other_query
          (VDict [("key", VStr key)]) (_clear_memory (VDict c) db).1).2
       = (_get_context json_loads loads_error other_query
            (VDict [("key", VStr key)]) db).2).
Proof.
  intros Hlimit Hbind Hrole Hshape. split.
  - rewrite (recall_memory_reports json_dumps json_loads loads_error float_text
               other_query d _ k role_filter Hlimit Hbind Hrole Hshape).
    + simpl. by rewrite rows_of_role_empty, most_recent_nil.
    + simpl. rewrite rows_of_role_empty, most_recent_nil. constructor.
  - intros Hkeep key. unfold _get_context, _clear_memory. simpl.
    rewrite Hkeep. destruct (String.eqb key ""); simpl; [done|].
    by destruct (context db !! key) as [[text at_]|].
Qed.

End StoreEntries.

(** A store with three turns, as the witnesses below use it. *)
Lemma recall_memory_most_recent_witness :
  (_recall_memory JsonText.dumps Json.loads loads_message id no_other_query
     (VDict [("limit", VInt 2)]) three_turns).2
  = Ret [ ("success", VBool true);
          ("history",
           VList [ VDict [ ("timestamp", VStr "2024-01-01T00:00:02");
                           ("role", VStr "assistant");
                           ("content", VStr "b");
                           ("metadata", VDict []) ];
                   VDict [ ("timestamp", VStr "2024-01-01T00:00:03");
                           ("role", VStr "user");
                           ("content", VStr "c");
                           ("metadata", VDict [("k", VInt 1)]) ] ]);
          ("count", VInt 2) ].
Proof.
  rewrite (recall_memory_most_recent JsonText.dumps Json.loads loads_message id no_other_query
             [("limit", VInt 2)] three_turns 2 VNone);
    [reflexivity..| |].
  - left. reflexivity.
  - match goal with
    | |- Forall _ ?rows =>
        let rows' := eval vm_compute in rows in
        replace rows with rows' by (vm_compute; reflexivity)
    end.
    repeat (constructor; [split; [vm_compute; discriminate|vm_compute; reflexivity]|]).
    constructor.
Defined.

Lemma save_memory_then_recall_witness :
  (_recall_memory JsonText.dumps Json.loads loads_message id no_other_query
     (VDict [("limit", VInt 1)])
     (_save_memory 2 "2024-01-01T00:00:04"
        (VDict [("content", VStr "d")]) three_turns).1).2
  = Ret [ ("success", VBool true);
          ("history",
           VList [ VDict [ ("timestamp", VStr "2024-01-01T00:00:04");
                           ("role", VStr "user");
                           ("content", VStr "d");
                           ("metadata", VDict []) ] ]);
          ("count", VInt 1) ].
Proof.
  rewrite (save_memory_then_recall JsonText.dumps Json.loads loads_message id no_other_query
             2 "2024-01-01T00:00:04" [("content", VStr "d")] three_turns);
    [reflexivity|lia|reflexivity|].
  split; [vm_compute; discriminate|vm_compute; reflexivity].
Defined.

Lemma set_context_then_get_witness :
  (_get_context Json.loads loads_message no_other_query
     (VDict [("key", VStr "city")])
     (_set_context JsonText.dumps no_other_query "2024-01-01T00:00:05"
        (VDict [("key", VStr "city"); ("value", VList [VStr "Oslo"; VInt 1])])
        three_turns).1).2
  = Ret [ ("success", VBool true); ("key", VStr "city");
          ("value", VList [VStr "Oslo"; VInt 1]) ].
Proof.
  destruct (set_context_then_get JsonText.dumps Json.loads loads_message
              no_other_query "2024-01-01T00:00:05" "city"
              [("key", VStr "city"); ("value", VList [VStr "Oslo"; VInt 1])]
              three_turns) as (_ & Hget & _); [reflexivity|discriminate|reflexivity|].
  rewrite Hget. reflexivity.
Defined.

Lemma clear_memory_then_recall_witness :
  (_recall_memory JsonText.dumps Json.loads loads_message id no_other_query
     (VDict [("limit", VInt 5); ("role", VStr "user")])
     (_clear_memory (VDict []) three_turns).1).2
  = Ret [ ("success", VBool true); ("history", VList []); ("count", VInt 0) ].
Proof.
  apply (clear_memory_then_recall JsonText.dumps Json.loads loads_message id
           no_other_query [] [("limit", VInt 5); ("role", VStr "user")]
           three_turns 5 (VStr "user"));
    [reflexivity|reflexivity|reflexivity|right; eexists; reflexivity].
Defined.

(** ** The configuration file *)

Lemma split_on_nonempty sep s : split_on sep s ≠ [].
Proof.
  induction s as [|c s IH]; simpl; [done|].
  destruct (split_on sep s); [done|]. by destruct (Ascii.eqb c sep).
Qed.

Lemma split_on_app sep k rest :
  occurs sep k = false →
  split_on sep (k +:+ String sep rest) = k :: split_on sep rest.
Proof.
  induction k as [|c k IH]; intros Hk.
  - change ("" +:+ String sep rest) with (String sep rest). simpl.
    rewrite Ascii.eqb_refl. pose proof (split_on_nonempty sep rest).
    by destruct (split_on sep rest).
  - simpl in Hk. apply orb_false_iff in Hk as [Hc Hk].
    rewrite app_String. simpl. rewrite IH by done. by rewrite Hc.
Qed.

Lemma get_path_not_none keys v fallback :
  keys ≠ [] → get_path keys v fallback = VNone → fallback = VNone.
Proof.
  revert v. induction keys as [|k keys IH]; intros v Hne; [done|]. simpl.
  destruct v as [| | | | | |d]; try done.
  destruct (dict_get k d) as [v'|]; [|done].
  destruct keys as [|k' keys].
  - simpl. by destruct v'.
  - destruct v'; try done; by apply IH.
Qed.

Lemma existsb_strings action (l : list string) :
  existsb (λ x, match x with VStr s => String.eqb s action | _ => false end)
          (VStr <$> l)
  = bool_decide (action ∈ l).
Proof.
  induction l as [|s l IH]; [done|].
  rewrite fmap_cons. cbn [existsb]. rewrite IH.
  destruct (String.eqb s action) eqn:Heq.
  - apply String.eqb_eq in Heq as ->. symmetry. apply bool_decide_eq_true_2. left.
  - apply String.eqb_neq in Heq. simpl.
    destruct (bool_decide (action ∈ l)) eqn:Hin.
    + apply bool_decide_eq_true_1 in Hin. symmetry.
      apply bool_decide_eq_true_2. by right.
    + apply bool_decide_eq_false_1 in Hin. symmetry.
      apply bool_decide_eq_false_2.
      intros [->|?]%elem_of_cons; [done|done].
Qed.

(** [Config.get] with a fallback other than [None] never answers [None],
    whatever the file and the key: a null in the file counts as a missing
    key, at every level of a dotted key. *)
Theorem Config_get_never_none config key fallback :
  fallback ≠ VNone → Config_get config key fallback ≠ VNone.
Proof.
  intros Hfallback Hnone. apply Hfallback.
  eapply get_path_not_none; [apply split_on_nonempty|exact Hnone].
Qed.

Lemma Config_get_never_none_witness :
  Config_get sample_yaml "ollama.model" (VStr "llama3") = VStr "llama3"
  ∧ Config_get sample_yaml "ollama.model" (VStr "llama3") ≠ VNone.
Proof.
  split; [reflexivity|].
  apply (Config_get_never_none sample_yaml "ollama.model" (VStr "llama3")).
  discriminate.
Defined.

(** A dotted key is looked up one level at a time: the part before the
    first dot is looked up in the document, and the rest of the key in what
    it names; the fallback is the answer as soon as the document is not a
    mapping, lacks the part, or has null there. *)
Theorem Config_get_nested config k rest fallback :
  occurs "." k = false →
  Config_get config (k +:+ String "." rest) fallback
  = match config with
    | VDict d =>
        match dict_get k d with
        | Some VNone | None => fallback
        | Some v => Config_get v rest fallback
        end
    | _ => fallback
    end.
Proof.
  intros Hk. unfold Config_get. rewrite split_on_app by done. simpl.
  destruct config; try done.
Qed.

Lemma Config_get_nested_witness :
  Config_get sample_yaml "ollama.url" VNone = VStr "http://localhost:11434".
Proof.
  exact (Config_get_nested sample_yaml "ollama" "url" VNone eq_refl).
Defined.

(** The settings record agrees with the file: when the file's
    [safety.blocked_actions] (or [safety.require_confirmation_for]) is the
    list of strings the record holds, with an absent or null entry read as
    the empty list, [Config.is_action_blocked] (or
    [Config.requires_confirmation]) returns what the record-level test
    returns. *)
Theorem Config_tests_refine config cfg action :
  Config_get config "safety.blocked_actions" (VList [])
    = VList (VStr <$> blocked_actions cfg) →
  Config_get config "safety.require_confirmation_for" (VList [])
    = VList (VStr <$> require_confirmation_for cfg) →
  Config_is_action_blocked config action = Some (is_action_blocked cfg action)
  ∧ Config_requires_confirmation config action
    = Some (requires_confirmation cfg action).
Proof.
  intros Hblocked Hconfirm.
  unfold Config_is_action_blocked, Config_requires_confirmation.
  rewrite Hblocked, Hconfirm. unfold py_in.
  by rewrite !existsb_strings.
Qed.

Lemma Config_tests_refine_witness :
  Config_is_action_blocked sample_yaml "file_delete" = Some true
  ∧ Config_requires_confirmation sample_yaml "file_delete" = Some false.
Proof.
  apply (Config_tests_refine sample_yaml
           {| blocked_actions := ["file_delete"; "system_shutdown"];
              require_confirmation_for := [];
              forbidden_directories := []; safe_directories := [];
              max_file_size_mb := 10; email_enabled := false;
              max_history_items := 1000 |} "file_delete");
    reflexivity.
Defined.

(** ** The policy engine, further *)

Section Tightening.

Context {W : Type} `{Platform W}.

Lemma forbidden_loop_subset (w : W) p dirs more :
  dirs ⊆ more → forbidden_loop w p more = None → forbidden_loop w p dirs = None.
Proof.
  intros Hsub Hmore. induction dirs as [|f dirs IH]; simpl; [done|].
  assert (Hf : relative_to p (resolve w f) = false).
  { assert (Hin : f ∈ more) by (apply Hsub; left).
    clear -Hmore Hin. induction more as [|g more IH]; [by apply elem_of_nil in Hin|].
    simpl in Hmore. destruct (relative_to p (resolve w g)) eqn:Hg; [done|].
    apply elem_of_cons in Hin as [->|Hin]; [done|by apply IH]. }
  rewrite Hf. apply IH. intros x Hx. apply Hsub. by right.
Qed.

(** Tightening the configuration never turns a denial into an allowance:
    an action with parameters that the validator allows under a
    configuration with more blocked actions and more forbidden
    directories (and otherwise the same settings) is allowed, with the
    same message, under the looser one. *)
Theorem validate_action_tightening cfg tighter (w : W) action params reason :
  tightens cfg tighter →
  validate_action tighter w action params = Ret (true, reason) →
  validate_action cfg w action params = Ret (true, reason).
Proof.
  intros (Hblocked & Hforbidden & Hsafe & Hsize & Hemail).
  unfold validate_action, is_action_blocked.
  destruct (bool_decide_reflect (action ∈ blocked_actions tighter)) as [|Hfree];
    [done|].
  rewrite bool_decide_eq_false_2 by (intros Hin; by apply Hfree, Hblocked).
  destruct (startswith action "file_").
  - unfold _validate_file_action.
    destruct (params_get params "path" (VStr "")) as [file_path|e]; simpl; [|done].
    destruct (negb (truthy file_path)); [done|].
    destruct file_path; try done.
    destruct (forbidden_loop w (resolve w s) (forbidden_directories tighter))
      eqn:Hloop; [done|].
    rewrite (forbidden_loop_subset w _ _ _ Hforbidden Hloop).
    by rewrite Hsafe, Hsize.
  - destruct (startswith action "email_").
    + unfold _validate_email_action. by rewrite Hemail.
    + done.
Qed.

End Tightening.

Lemma validate_action_tightening_witness :
  validate_action default_config O "file_info" (VDict [("path", VStr "/tmp/a.txt")])
  = Ret (true, "File action is safe").
Proof.
  apply (validate_action_tightening default_config home_user_forbidden O
           "file_info" (VDict [("path", VStr "/tmp/a.txt")]) "File action is safe").
  - repeat split; try reflexivity; intros x Hx; by apply elem_of_nil in Hx.
  - reflexivity.
Defined.

Section Rules.

Context {W : Type} `{Platform W}.
Variable cfg : Config.

(** The verdict on an email action that is not blocked: it is allowed
    exactly when the email module is enabled and, for [email_send], the
    request has a truthy recipient and a truthy subject or body; for any
    other email action the parameters are not looked at. *)
Theorem validate_email_verdict (w : W) action d :
  startswith action "email_" = true →
  is_action_blocked cfg action = false →
  ∃ reason,
    validate_action cfg w action (VDict d)
    = Ret (email_enabled cfg
           && (negb (String.eqb action "email_send")
               || truthy (default VNone (dict_get "recipient" d))
                  && (truthy (default VNone (dict_get "subject" d))
                      || truthy (default VNone (dict_get "body" d)))),
           reason).
Proof.
  intros Hemail Hfree. unfold validate_action. rewrite Hfree.
  rewrite (startswith_email_not_file _ Hemail), Hemail.
  unfold _validate_email_action.
  destruct (email_enabled cfg); simpl; [|by eexists].
  destruct (String.eqb action "email_send"); simpl; [|by eexists].
  destruct (truthy (default VNone (dict_get "recipient" d))); simpl; [|by eexists].
  destruct (truthy (default VNone (dict_get "subject" d))),
           (truthy (default VNone (dict_get "body" d))); simpl; by eexists.
Qed.



End Rules.

Lemma validate_email_verdict_witness :
  ∃ reason,
    validate_action email_on O "email_send"
      (VDict [("recipient", VStr "a@b.c"); ("body", VStr "hello")])
    = Ret (true, reason).
Proof.
  apply (validate_email_verdict email_on O "email_send"
           [("recipient", VStr "a@b.c"); ("body", VStr "hello")]);
    reflexivity.
Defined.


(** *** Dangerous commands *)

Lemma search_from_app items pre s : ∀ prev,
  Regex.match_here items (last_of prev pre) s = true →
  Regex.search_from items prev (pre +:+ s) = true.
Proof.
  induction pre as [|c pre IH]; intros prev Hhere.
  - rewrite app_empty_l. simpl in Hhere.
    destruct s; simpl; by rewrite Hhere.
  - rewrite app_String. simpl. rewrite IH by done. apply orb_true_r.
Qed.

Lemma eq_ci_r_word x : Regex.eq_ci x "r" = true → Regex.is_word x = true.
Proof. destruct x as [[] [] [] [] [] [] [] []]; vm_compute; done. Qed.

Lemma spaces_gap rest least gap : ∀ seen prev s,
  all_space gap = true →
  (least ≤ seen + String.length gap)%nat →
  Regex.match_here rest (last_of prev gap) s = true →
  (fix spaces (seen : nat) (prev0 : option ascii) (s0 : string) {struct s0} :
       bool :=
     (least <=? seen)%nat && Regex.match_here rest prev0 s0
     || match s0 with
        | "" => false
        | String x s' => Regex.is_space x && spaces (S seen) (Some x) s'
        end) seen prev (gap +:+ s) = true.
Proof.
  induction gap as [|c gap IH]; intros seen prev s Hspace Hleast Hrest.
  - rewrite app_empty_l. simpl in Hleast, Hrest.
    assert ((least <=? seen)%nat = true) as Hle by (apply Nat.leb_le; lia).
    destruct s; by rewrite Hle, Hrest.
  - rewrite app_String. simpl in Hspace, Hleast, Hrest.
    apply andb_true_iff in Hspace as [Hc Hgap].
    rewrite Hc, (IH (S seen) (Some c) s) by (done || lia).
    apply orb_true_r.
Qed.

(** Matching a run of literal characters. *)
Lemma match_here_lits word text rest s : ∀ prev,
  same_ci text word = true →
  Regex.match_here rest (last_of prev text) s = true →
  Regex.match_here (Regex.lits word ++ rest)%list prev (text +:+ s) = true.
Proof.
  revert text. induction word as [|c word IH]; intros [|x text] prev Hsame Hrest;
    try done.
  simpl in Hsame. apply andb_true_iff in Hsame as [Hx Hsame].
  rewrite app_String. unfold Regex.lits. simpl.
  rewrite Hx. simpl. apply IH; done.
Qed.

Lemma find_head {A} (f : A → bool) x l : f x = true → List.find f (x :: l) = Some x.
Proof. intros Hx. simpl. by rewrite Hx. Qed.

Section Commands.

Context {W : Type} `{Platform W}.
Variable cfg : Config.

(** A command in which the word [rm], in any letter case, begins a word,
    and is followed by white space and then by [-rf], in any letter case,
    is denied whatever else the command holds, with the first pattern of
    the list as the reason. *)
Theorem validate_system_command_rm_rf (w : W) pre rm gap rf post :
  is_action_blocked cfg "system_command" = false →
  word_may_begin_after pre = true →
  same_ci rm "rm" = true →
  gap ≠ "" → all_space gap = true →
  same_ci rf "-rf" = true →
  validate_action cfg w "system_command"
    (VDict [("command", VStr (pre +:+ rm +:+ gap +:+ rf +:+ post))])
  = Ret (false, "Command contains potentially dangerous operation: \brm\s+-rf").
Proof.
  intros Hfree Hpre Hrm Hgap Hspace Hrf.
  assert (Hsearch : Regex.search
            (Regex.Boundary :: Regex.lits "rm" ++ Regex.Spaces 1 :: Regex.lits "-rf")%list
            (pre +:+ rm +:+ gap +:+ rf +:+ post) = true).
  { apply search_from_app.
    cbn [Regex.match_here]. apply andb_true_iff. split.
    - unfold word_may_begin_after in Hpre. unfold Regex.at_boundary.
      destruct rm as [|a rm]; [done|]. simpl in Hrm.
      apply andb_true_iff in Hrm as [Ha _]. rewrite app_String.
      rewrite (eq_ci_r_word a Ha).
      destruct (last_of None pre); [|done].
      apply andb_true_iff in Hpre as [_ Hpre%negb_true_iff]. by rewrite Hpre.
    - apply match_here_lits; [done|].
      cbn [Regex.match_here]. apply spaces_gap; [done| |].
      + destruct gap; [done|]. simpl. lia.
      + rewrite <- (app_nil_r (Regex.lits "-rf")).
        apply match_here_lits; done. }
  assert (Hne : String.eqb (pre +:+ rm +:+ gap +:+ rf +:+ post) "" = false).
  { destruct pre; [|done]. rewrite app_empty_l. by destruct rm. }
  unfold validate_action. rewrite Hfree.
  change (startswith "system_command" "file_") with false.
  change (startswith "system_command" "email_") with false.
  change (String.eqb "system_command" "system_command") with true.
  cbv iota. unfold _validate_system_command.
  change (params_get (VDict [("command", VStr ?c)]) "command" (VStr ""))
    with (@Ret value (VStr c)).
  cbn [mbind]. unfold outcome_bind. cbv beta iota.
  cbn [truthy]. rewrite Hne. cbn [negb].
  unfold dangerous_patterns. cbv zeta.
  rewrite find_head by exact Hsearch.
  reflexivity.
Qed.

End Commands.

Lemma validate_system_command_rm_rf_witness :
  validate_action default_config O "system_command"
    (VDict [("command", VStr "cd /; RM  -Rf *")])
  = Ret (false, "Command contains potentially dangerous operation: \brm\s+-rf").
Proof.
  apply (validate_system_command_rm_rf default_config O
           "cd /; " "RM" "  " "-Rf" " *");
    [reflexivity|reflexivity|reflexivity|discriminate|reflexivity|reflexivity].
Defined.

(** ** The router, further *)

Lemma startswith_first p q a b action :
  startswith action (String a p) = true →
  startswith action (String b q) = true → a = b.
Proof.
  unfold startswith. destruct action as [|c action]; [done|].
  cbn [String.prefix].
  destruct (ascii_dec a c) as [->|]; [|done].
  by destruct (ascii_dec b c) as [->|].
Qed.

(** No action starts with two of the router's prefixes, so the module
    found does not depend on the order of the table: any entry whose
    prefix the action starts with is the one [route] uses. *)
Theorem find_module_unambiguous action prefix module_name :
  (prefix, module_name) ∈ action_map →
  startswith action prefix = true →
  find_module action action_map = Some module_name.
Proof.
  unfold action_map. intros Hin Hstart.
  repeat (apply elem_of_cons in Hin as [[= -> ->]|Hin]);
    [..|by apply elem_of_nil in Hin];
    simpl;
    repeat match goal with
    | |- context [startswith action ?p] =>
        lazymatch type of Hstart with
        | startswith action p = true => rewrite Hstart
        | _ =>
            let Hq := fresh in
            destruct (startswith action p) eqn:Hq;
              [by pose proof (startswith_first _ _ _ _ _ Hstart Hq)|]
        end
    end; done.
Qed.

Lemma find_module_unambiguous_witness :
  find_module "plan_task" action_map = Some "planning".
Proof.
  apply (find_module_unambiguous "plan_task" "plan_" "planning");
    [|reflexivity].
  unfold action_map. repeat (first [left|right]).
Defined.

Section Unregistered.

Context {W : Type} `{Platform W}.
Variable cfg : Config.

Lemma lookup_method_unregistered action table :
  table.*1 ⊆ registered_actions → action ∉ registered_actions →
  lookup_method action table = None.
Proof.
  intros Hsub Hout. induction table as [|[name method] table IH]; simpl; [done|].
  destruct (String.eqb_spec action name) as [->|_].
  - destruct Hout. apply Hsub. left.
  - apply IH. intros x Hx. apply Hsub. by right.
Qed.

Lemma dispatch_unregistered kind table action params (w : W) :
  table.*1 ⊆ registered_actions → action ∉ registered_actions →
  dispatch kind table action params w
  = (w, success_false ("Unknown " +:+ kind +:+ " action: " +:+ action)).
Proof.
  intros Hsub Hout. unfold dispatch.
  by rewrite lookup_method_unregistered.
Qed.

End Unregistered.

Ltac registered :=
  let x := fresh in let Hx := fresh in
  intros x Hx; simpl in Hx;
  repeat (apply elem_of_cons in Hx as [->|Hx]);
  [unfold registered_actions; repeat (first [by left|right])..
  |by apply elem_of_nil in Hx].

Section UnregisteredRoute.

Context {W : Type} `{Platform W}.
Variable cfg : Config.

Lemma unregistered_not name action :
  name ∈ registered_actions → action ∉ registered_actions →
  String.eqb action name = false.
Proof. intros Hin Hout. apply String.eqb_neq. by intros ->. Qed.

(** An action name for which no module has a method is answered with a
    failure and no method is run, whatever its prefix, its parameters and
    the configuration: the world and the memory are as before. *)
Theorem route_unregistered_action action params (st : State W) :
  action ∉ registered_actions →
  (route cfg action params st).1 = st
  ∧ dict_get "success" (route cfg action params st).2 = Some (VBool false).
Proof.
  intros Hout. destruct st as [w db]. unfold route, find_module, action_map.
  destruct (startswith action "file_").
  { simpl. unfold on_world, FileActionsModule_execute. simpl.
    destruct (validate_action cfg w action params) as [[[|] message]|e]; simpl;
      [|done..].
    destruct (requires_confirmation cfg action); simpl; [done|].
    rewrite dispatch_unregistered; [done| |done]. registered. }
  destruct (startswith action "email_").
  { simpl. unfold on_world, EmailModule_execute. simpl.
    destruct (validate_action cfg w action params) as [[[|] message]|e]; simpl;
      [|done..].
    destruct (requires_confirmation cfg action); simpl; [done|].
    rewrite dispatch_unregistered; [done| |done]. registered. }
  destruct (startswith action "image_").
  { simpl. unfold on_world, total, VisionModule_execute. simpl.
    rewrite dispatch_unregistered; [done| |done]. registered. }
  destruct (startswith action "voice_").
  { simpl. unfold on_world, total, VoiceModule_execute. simpl.
    rewrite dispatch_unregistered; [done| |done]. registered. }
  destruct (startswith action "api_").
  { simpl. unfold on_world, total, APIModule_execute. simpl.
    rewrite dispatch_unregistered; [done| |done]. registered. }
  destruct (startswith action "memory_").
  { simpl. unfold MemoryModule_execute.
    rewrite !(unregistered_not _ action); try done;
      unfold registered_actions; repeat (first [by left|right]). }
  destruct (startswith action "plan_").
  { simpl. unfold on_world, total, PlanningModule_execute. simpl.
    rewrite dispatch_unregistered; [done| |done]. registered. }
  done.
Qed.


(** When the validator raises on a file or email action (a path that is
    not text, parameters that are not a dict), [route] reports the
    exception as a failed module execution, stamped with the module and
    the action, and nothing is run. *)
Theorem route_validator_raises action params (st : State W) e :
  startswith action "file_" = true ∨ startswith action "email_" = true →
  validate_action cfg (world st) action params = Raise e →
  route cfg action params st
  = (st, [ ("success", VBool false);
           ("error", VStr ("Module execution failed: " +:+ e));
           ("module", VStr (if startswith action "file_" then "file" else "email"));
           ("action", VStr action) ]).
Proof.
  intros Hprefix Hraise. destruct st as [w db]. simpl in Hraise.
  unfold route, find_module, action_map.
  destruct (startswith action "file_") eqn:Hfile.
  - simpl. unfold on_world, FileActionsModule_execute. simpl. by rewrite Hraise.
  - destruct Hprefix as [|Hemail]; [done|]. rewrite Hemail.
    simpl. unfold on_world, EmailModule_execute. simpl. by rewrite Hraise.
Qed.

End UnregisteredRoute.

Lemma route_unregistered_action_witness :
  (route default_config "file_rename" (VDict [("path", VStr "/tmp/a.txt")])
     Posix.start).1 = Posix.start
  ∧ dict_get "success"
      (route default_config "file_rename" (VDict [("path", VStr "/tmp/a.txt")])
         Posix.start).2 = Some (VBool false).
Proof.
  apply (route_unregistered_action default_config "file_rename"
           (VDict [("path", VStr "/tmp/a.txt")]) Posix.start).
  exact (bool_decide_eq_false_1 ("file_rename" ∈ registered_actions) eq_refl).
Defined.


Lemma route_validator_raises_witness :
  dict_get "module"
    (route default_config "file_read" (VDict [("path", VInt 5)]) Posix.start).2
  = Some (VStr "file")
  ∧ (route default_config "file_read" (VDict [("path", VInt 5)]) Posix.start).1
    = Posix.start.
Proof.
  rewrite (route_validator_raises default_config "file_read"
             (VDict [("path", VInt 5)]) Posix.start
             "expected str, bytes or os.PathLike object, not int");
    [split; reflexivity|left; reflexivity|reflexivity].
Defined.

Section BatchComposition.

Context {W : Type} `{Platform W}.
Variable cfg : Config.

Lemma process_loop_acc tool_calls results (st : State W) :
  process_loop cfg tool_calls results st
  = ((process_loop cfg tool_calls [] st).1,
     after_results results (process_loop cfg tool_calls [] st).2).
Proof.
  revert results st. induction tool_calls as [|tool_call rest IH];
    intros results st; simpl.
  { by rewrite app_nil_r. }
  destruct (params_get tool_call "action" VNone) as [action|e]; [|done].
  destruct (params_get tool_call "params" (VDict [])) as [params|e]; [|done].
  destruct (negb (truthy action)).
  - rewrite (IH (results ++ _)%list), (IH [_]).
    destruct (process_loop cfg rest [] st) as [st' [later|e]]; simpl; [|done].
    by rewrite <- app_assoc.
  - destruct action; try done.
    rewrite (IH (results ++ _)%list), (IH [_]).
    destruct (process_loop cfg rest [] _) as [st' [later|e]]; simpl; [|done].
    by rewrite <- app_assoc.
Qed.

Lemma process_loop_app first second results (st : State W) :
  process_loop cfg (first ++ second) results st
  = match process_loop cfg first results st with
    | (st1, Ret results1) => process_loop cfg second results1 st1
    | (st1, Raise e) => (st1, Raise e)
    end.
Proof.
  revert results st. induction first as [|tool_call rest IH];
    intros results st; simpl; [done|].
  destruct (params_get tool_call "action" VNone) as [action|e]; [|done].
  destruct (params_get tool_call "params" (VDict [])) as [params|e]; [|done].
  destruct (negb (truthy action)); [apply IH|].
  destruct action; first [done|apply IH].
Qed.

(** A batch can be cut anywhere: processing [first ++ second] is
    processing [first], then [second] from the state that leaves, with
    the results put end to end; if [first] raises, [second] is not
    started. *)
Theorem process_tool_calls_app first second (st : State W) :
  process_tool_calls cfg (first ++ second) st
  = match process_tool_calls cfg first st with
    | (st1, Ret results1) =>
        ((process_tool_calls cfg second st1).1,
         after_results results1 (process_tool_calls cfg second st1).2)
    | (st1, Raise e) => (st1, Raise e)
    end.
Proof.
  unfold process_tool_calls. rewrite process_loop_app.
  destruct (process_loop cfg first [] st) as [st1 [results1|e]]; [|done].
  apply process_loop_acc.
Qed.

(** A request that is not a dict, or whose action is truthy but not a
    string, aborts the batch with an exception: the requests before it
    have been carried out and their effects stay, the ones after it are
    not started, and no result is returned, not even those of the
    requests carried out. *)
Theorem process_tool_calls_aborts good bad rest (st : State W) :
  Forall (λ c, names_action c = true) good →
  names_action bad = false →
  ∃ e, process_tool_calls cfg (good ++ bad :: rest) st
       = (state_before cfg (length good) good st, Raise e).
Proof.
  intros Hgood Hbad. unfold process_tool_calls. rewrite process_loop_app.
  destruct (process_loop_results cfg good [] st Hgood) as (answers & -> & _).
  simpl. destruct bad as [| | | | | |d]; simpl in *; try by eexists.
  destruct (dict_get "action" d) as [action|]; [|done]. simpl.
  destruct action; simpl in *; try done;
    apply negb_false_iff in Hbad; rewrite Hbad; simpl; by eexists.
Qed.

End BatchComposition.

Lemma process_tool_calls_aborts_witness :
  ∃ e,
    process_tool_calls default_config
      [ VDict [("action", VStr "file_info"); ("params", VDict [("path", VStr "/tmp/a.txt")])];
        VDict [("action", VInt 7)];
        VDict [("action", VStr "api_get")] ] Posix.start
    = ({| world := 1%nat; memory := Posix.empty_db |}, Raise e).
Proof.
  destruct (process_tool_calls_aborts default_config
              [ VDict [("action", VStr "file_info");
                       ("params", VDict [("path", VStr "/tmp/a.txt")])] ]
              (VDict [("action", VInt 7)])
              [ VDict [("action", VStr "api_get")] ] Posix.start)
    as [e He]; [repeat constructor|reflexivity|].
  exists e. exact He.
Defined.
